(** * Equity & Mutual Fund Analyzer: the metric and verdict pipeline

    A shallow embedding of the computations of [Stock-MF-Calc.py]: the
    fund verdict classifier [mf_verdict], the sector comparison
    ([build_comparison], [why_this_stock]), the two expected-return
    formulas and the NAV analytics (windowed CAGR, volatility, Sharpe
    ratio, maximum drawdown).

    Numbers.  The script computes with binary64 floats (Python [float],
    [numpy.float64]).  They are modelled by [pyfloat]: an exact rational,
    or one of the three IEEE special values [+inf], [-inf], [nan].
    Arithmetic on finite values is exact (rounding is not modelled), and
    the special values follow IEEE 754 as numpy implements it: a non-zero
    number divided by zero is an infinity, [0/0] and [inf - inf] are
    [nan], [nan] is absorbing, and every ordered comparison with [nan] is
    false.  Zero carries no sign (it behaves as [+0.0]).  The square
    root is taken on a dyadic grid ([np_sqrt]) and the power function is
    a parameter ([cagr_3y]).

    Failure.  The script raises nothing of its own.  A function returning
    [option] models either Python's value [None] ([mf_verdict], [.get])
    or, for [.iloc] on an empty selection, the [IndexError] pandas
    raises; each definition says which. *)

From Stdlib Require Import QArith Qreduction Qabs Lqa ZArith Lia List Bool.
From Stdlib Require Import Floats Sorted.
From stdpp Require Import gmap strings sorting.

Open Scope Z_scope.

(** ** Numbers *)

Inductive pyfloat : Type :=
| Fin (q : Q)
| PInf
| NInf
| NaN.

Arguments Fin q%_Q.

Declare Scope py_scope.
Delimit Scope py_scope with py.
Bind Scope py_scope with pyfloat.

Definition Qltb (a b : Q) : bool := negb (Qle_bool b a).

(** The infinity (or [nan]) that a comparison of a numerator with zero
    selects: [Gt] for a positive numerator. *)
Definition inf_of_sign (c : comparison) : pyfloat :=
  match c with
  | Gt => PInf
  | Lt => NInf
  | Eq => NaN
  end.

Definition fneg (x : pyfloat) : pyfloat :=
  match x with
  | Fin a => Fin (- a)
  | PInf => NInf
  | NInf => PInf
  | NaN => NaN
  end.

Definition fadd (x y : pyfloat) : pyfloat :=
  match x, y with
  | NaN, _ | _, NaN => NaN
  | PInf, NInf | NInf, PInf => NaN
  | PInf, _ | _, PInf => PInf
  | NInf, _ | _, NInf => NInf
  | Fin a, Fin b => Fin (Qred (a + b))
  end.

Definition fsub (x y : pyfloat) : pyfloat := fadd x (fneg y).

Definition fmul (x y : pyfloat) : pyfloat :=
  match x, y with
  | NaN, _ | _, NaN => NaN
  | Fin a, Fin b => Fin (Qred (a * b))
  | Fin a, PInf | PInf, Fin a => inf_of_sign (a ?= 0)%Q
  | Fin a, NInf | NInf, Fin a => inf_of_sign (0 ?= a)%Q
  | PInf, PInf | NInf, NInf => PInf
  | PInf, NInf | NInf, PInf => NInf
  end.

Definition fdiv (x y : pyfloat) : pyfloat :=
  match x, y with
  | NaN, _ | _, NaN => NaN
  | Fin a, Fin b =>
      if Qeq_bool b 0 then inf_of_sign (a ?= 0)%Q else Fin (Qred (a / b))
  | Fin _, (PInf | NInf) => Fin 0
  | PInf, Fin b => if Qle_bool 0 b then PInf else NInf
  | NInf, Fin b => if Qle_bool 0 b then NInf else PInf
  | (PInf | NInf), (PInf | NInf) => NaN
  end.

Definition flt (x y : pyfloat) : bool :=
  match x, y with
  | NaN, _ | _, NaN => false
  | Fin a, Fin b => Qltb a b
  | _, NInf => false
  | NInf, _ => true
  | PInf, _ => false
  | Fin _, PInf => true
  end.

Definition fle (x y : pyfloat) : bool :=
  match x, y with
  | NaN, _ | _, NaN => false
  | Fin a, Fin b => Qle_bool a b
  | NInf, _ => true
  | _, PInf => true
  | _, NInf => false
  | PInf, _ => false
  end.

(** [x == y]: [nan] equals nothing, itself included. *)
Definition feqb (x y : pyfloat) : bool :=
  match x, y with
  | Fin a, Fin b => Qeq_bool a b
  | PInf, PInf | NInf, NInf => true
  | _, _ => false
  end.

Definition fgt (x y : pyfloat) : bool := flt y x.
Definition fge (x y : pyfloat) : bool := fle y x.

Definition is_nan (x : pyfloat) : bool :=
  match x with
  | NaN => true
  | _ => false
  end.

Definition is_finite (x : pyfloat) : bool :=
  match x with
  | Fin _ => true
  | _ => false
  end.

Infix "+" := fadd : py_scope.
Infix "-" := fsub : py_scope.
Infix "*" := fmul : py_scope.
Infix "/" := fdiv : py_scope.
Infix "<?" := flt : py_scope.
Infix "<=?" := fle : py_scope.
Infix ">?" := fgt : py_scope.
Infix ">=?" := fge : py_scope.
Infix "=?" := feqb : py_scope.

(** ** The fund verdict classifier *)

Definition GOOD : string := "✅ Good".
Definition AVERAGE : string := "🟡 Average".
Definition POOR : string := "🔴 Poor".

(** [mf_verdict] returns a string on each branch of a recognized metric;
    for any other metric the body falls off its end, and the call
    evaluates to Python's [None], here [None]. No branch raises. *)
Definition mf_verdict (metric : string) (value : pyfloat) : option string :=
  if existsb (String.eqb metric) ["1Y CAGR"; "3Y CAGR"]%string then
    if (value >? Fin 0.12)%py then Some GOOD
    else if (value >=? Fin 0.08)%py then Some AVERAGE
    else Some POOR
  else if String.eqb metric "Volatility" then
    if (value <? Fin 0.15)%py then Some GOOD
    else if (value <=? Fin 0.20)%py then Some AVERAGE
    else Some POOR
  else if String.eqb metric "Sharpe Ratio" then
    if (value >? Fin 1)%py then Some GOOD
    else if (value >=? Fin 0.5)%py then Some AVERAGE
    else Some POOR
  else if String.eqb metric "Max Drawdown" then
    if (value >? Fin (-0.25))%py then Some GOOD
    else if (value >=? Fin (-0.40))%py then Some AVERAGE
    else Some POOR
  else None.

(** The metric tags the classifier recognizes, and the three verdicts of
    its bands. *)
Definition MF_METRICS : list string :=
  ["1Y CAGR"; "3Y CAGR"; "Volatility"; "Sharpe Ratio"; "Max Drawdown"]%string.

Definition BAND_VERDICTS : list string := [GOOD; AVERAGE; POOR].

(** ** Equity: the sector comparison *)

Record metric_meta : Type := {
  label : string;
  inverse : bool;
  range : string
}.

(** [METRIC_INFO] is a dict literal; Python iterates it in insertion
    order, so it is an association list. *)
Definition METRIC_INFO : list (string * metric_meta) := [
  ("pe", {| label := "P/E Ratio"; inverse := true;
            range := "<15 Cheap | 15–25 Fair | >25 Expensive" |});
  ("roe", {| label := "ROE"; inverse := false;
             range := "<10% Weak | 10–15% Avg | >15% Strong" |});
  ("margin", {| label := "Operating Margin"; inverse := false;
                range := "<10% Weak | 10–20% Healthy | >20% Strong" |});
  ("rev_growth", {| label := "Revenue Growth"; inverse := false;
                    range := "<5% Low | 5–12% Moderate | >12% High" |});
  ("de", {| label := "Debt / Equity"; inverse := true;
            range := "<0.5 Safe | 0.5–1 Acceptable | >1 Risky" |})
]%string.

(** A metric set ([stock], [sector]) is only ever read through [.get(k)],
    which answers [None] both for a missing key and for a key bound to
    [None]: a finite map from keys to numbers, absent meaning [None]. *)
Abbreviation MetricSet := (gmap string pyfloat).

Record comparison_row : Type := {
  Metric : string;
  Stock : option pyfloat;
  Sector_Avg : option pyfloat;
  Interpretation : string;
  Verdict : string
}.

Definition BETTER : string := "Better".
Definition WORSE : string := "Worse".
Definition UNKNOWN : string := "—".

(** [s < sec if meta["inverse"] else s > sec], written out in both
    [build_comparison] and [why_this_stock]. *)
Definition better (meta : metric_meta) (s sec : pyfloat) : bool :=
  if inverse meta then (s <? sec)%py else (s >? sec)%py.

Definition comparison_row_of (stock sector : MetricSet)
    (item : string * metric_meta) : comparison_row :=
  let '(k, meta) := item in
  let s := stock !! k in
  let sec := sector !! k in
  let verdict :=
    match s, sec with
    | Some s', Some sec' => if better meta s' sec' then BETTER else WORSE
    | _, _ => UNKNOWN
    end in
  {| Metric := label meta; Stock := s; Sector_Avg := sec;
     Interpretation := range meta; Verdict := verdict |}.

Definition build_comparison (stock sector : MetricSet) : list comparison_row :=
  map (comparison_row_of stock sector) METRIC_INFO.

(** One turn of the loop of [why_this_stock] over the pair
    [(positives, negatives)]. *)
Definition why_step (stock sector : MetricSet)
    (acc : list string * list string) (item : string * metric_meta)
    : list string * list string :=
  let '(positives, negatives) := acc in
  let '(k, meta) := item in
  match stock !! k, sector !! k with
  | Some s, Some sec =>
      if better meta s sec then (positives ++ [label meta], negatives)
      else (positives, negatives ++ [label meta])
  | _, _ => acc
  end.

Definition why_groups (stock sector : MetricSet) : list string * list string :=
  fold_left (why_step stock sector) METRIC_INFO ([], []).

Definition is_nil {A : Type} (l : list A) : bool :=
  match l with
  | [] => true
  | _ => false
  end.

Definition why_this_stock (stock sector : MetricSet) : string :=
  let '(positives, negatives) := why_groups stock sector in
  if is_nil positives && is_nil negatives then
    "The stock performs broadly in line with sector peers."
  else
    let text := [] in
    let text :=
      if is_nil positives then text
      else text ++ ["Strengths: " +:+ String.concat ", " positives +:+ "."] in
    let text :=
      if is_nil negatives then text
      else text ++ ["Weaknesses: " +:+ String.concat ", " negatives +:+ "."] in
    String.concat " " text.

(** ** Equity: the expected return *)

(** [x or 0] for [x = d.get(k)]: [None] and a zero are falsy and give [0];
    anything else, [nan] included, is truthy and is kept. *)
Definition or_zero (v : option pyfloat) : pyfloat :=
  match v with
  | None => Fin 0
  | Some (Fin q) => if Qeq_bool q 0 then Fin 0 else Fin q
  | Some x => x
  end.

Definition roe_bonus (roe : pyfloat) : pyfloat :=
  if (roe >? Fin 0.15)%py then Fin 0.03 else Fin 0.

Definition de_penalty (de : pyfloat) : pyfloat :=
  if (de >? Fin 1)%py then Fin 0.02 else Fin 0.

Definition expected_return_stock (stock_metrics : MetricSet) : pyfloat :=
  let rev := or_zero (stock_metrics !! "rev_growth") in
  let roe := or_zero (stock_metrics !! "roe") in
  let de := or_zero (stock_metrics !! "de") in
  (rev + roe_bonus roe - de_penalty de)%py.

(** ** Funds: the NAV frame *)

(** A calendar date (the [date] column after [pd.to_datetime]). *)
Record date : Type := Date {
  year : Z;
  month : Z;
  day : Z
}.

Definition date_leb (a b : date) : bool :=
  if year a <? year b then true
  else if year b <? year a then false
  else if month a <? month b then true
  else if month b <? month a then false
  else day a <=? day b.

Definition is_leap (y : Z) : bool :=
  ((y mod 4 =? 0) && negb (y mod 100 =? 0)) || (y mod 400 =? 0).

(** [d - pd.DateOffset(years=k)]: the same month and day [k] years
    earlier, the 29th of February moved to the 28th in a common year. *)
Definition minus_years (d : date) (k : Z) : date :=
  let y := year d - k in
  {| year := y;
     month := month d;
     day := if (month d =? 2) && (day d =? 29) && negb (is_leap y)
            then 28 else day d |}.

(** A row of [nav_df]. The [nav] column holds the decimals parsed from
    the payload by [astype(float)], so it is finite. *)
Record nav_row : Type := NavRow {
  row_date : date;
  row_nav : Q
}.

Definition date_max (l : list date) : option date :=
  match l with
  | [] => None
  | d :: t => Some (fold_left (fun m x => if date_leb m x then x else m) t d)
  end.

(** [nav_df[nav_df["date"] >= nav_df["date"].max() - pd.DateOffset(years)]].
    On an empty frame the maximum is [NaT] and the mask selects nothing. *)
Definition window (years : Z) (nav_df : list nav_row) : list nav_row :=
  match date_max (map row_date nav_df) with
  | None => []
  | Some m =>
      List.filter (fun r => date_leb (minus_years m years) (row_date r)) nav_df
  end.

(** [.iloc[0]] and [.iloc[-1]] of the [nav] column; [None] stands for the
    [IndexError] raised on an empty selection. *)
Definition iloc_first (df : list nav_row) : option Q := row_nav <$> head df.
Definition iloc_last (df : list nav_row) : option Q := row_nav <$> last df.

Definition cagr_1y (nav_df : list nav_row) : option pyfloat :=
  let nav_1y := window 1 nav_df in
  l ← iloc_last nav_1y;
  f ← iloc_first nav_1y;
  Some (Fin l / Fin f - Fin 1)%py.

Section Power.

(** [x ** y] on [numpy.float64]: not a rational function, and no claim
    below depends on its values, so it is a parameter of [cagr_3y]. *)
Variable power : pyfloat -> pyfloat -> pyfloat.

Definition cagr_3y (nav_df : list nav_row) : option pyfloat :=
  let nav_3y := window 3 nav_df in
  l ← iloc_last nav_3y;
  f ← iloc_first nav_3y;
  Some (power (Fin l / Fin f) (Fin 1 / Fin 3) - Fin 1)%py.

End Power.

(** ** Funds: returns, volatility, Sharpe ratio, drawdown *)

Fixpoint pct_change_from (prev : Q) (l : list Q) : list pyfloat :=
  match l with
  | [] => []
  | x :: t => (Fin x / Fin prev - Fin 1)%py :: pct_change_from x t
  end.

(** [Series.pct_change()]: [nan] at the first position, then
    [x / previous - 1]. *)
Definition pct_change (l : list Q) : list pyfloat :=
  match l with
  | [] => []
  | x :: t => NaN :: pct_change_from x t
  end.

(** pandas reductions skip [nan] ([skipna=True]). *)
Definition dropna (l : list pyfloat) : list pyfloat :=
  List.filter (fun x => negb (is_nan x)) l.

Definition fsum (l : list pyfloat) : pyfloat := fold_left fadd l (Fin 0).

Definition of_nat (n : nat) : pyfloat := Fin (inject_Z (Z.of_nat n)).

(** [Series.mean()]: the sum of the values that are not [nan] over their
    count, [nan] when there is none. *)
Definition series_mean (l : list pyfloat) : pyfloat :=
  let v := dropna l in
  match v with
  | [] => NaN
  | _ => (fsum v / of_nat (length v))%py
  end.

(** [np.sqrt] on the grid of multiples of [2^-52]: the rational square
    root rounded down to it (numpy rounds to the nearest double instead).
    The negative numbers and [-inf] give [nan]. *)
Definition np_sqrt (x : pyfloat) : pyfloat :=
  match x with
  | Fin q =>
      if Qltb q 0 then NaN
      else Fin (Qred (Z.sqrt (Qnum q * 4 ^ 52 / Zpos (Qden q)) # 2 ^ 52))
  | PInf => PInf
  | NInf => NaN
  | NaN => NaN
  end.

(** The variance behind [Series.std()] ([ddof=1]): [nan] unless two
    values at least are not [nan]; otherwise the squared deviations from
    the mean, summed, over [count - 1]. *)
Definition series_var (l : list pyfloat) : pyfloat :=
  let v := dropna l in
  let count := length v in
  if (count <=? 1)%nat then NaN
  else
    let avg := (fsum v / of_nat count)%py in
    let sqr := map (fun x => ((avg - x) * (avg - x))%py) v in
    (fsum sqr / of_nat (count - 1))%py.

Definition series_std (l : list pyfloat) : pyfloat := np_sqrt (series_var l).

Definition volatility (returns : list pyfloat) : pyfloat :=
  (series_std returns * np_sqrt (Fin 252))%py.

Definition sharpe (returns : list pyfloat) : pyfloat :=
  ((series_mean returns * Fin 252) / volatility returns)%py.

Fixpoint cummax_from (m : Q) (l : list Q) : list Q :=
  match l with
  | [] => []
  | x :: t =>
      let m' := if Qle_bool m x then x else m in
      m' :: cummax_from m' t
  end.

(** [Series.cummax()]: the running maximum. *)
Definition cummax (l : list Q) : list Q :=
  match l with
  | [] => []
  | x :: t => x :: cummax_from x t
  end.

(** The running minimum: [y] replaces [m] when it is strictly below. *)
Definition fmin (m y : pyfloat) : pyfloat := if (y <? m)%py then y else m.

(** [Series.min()]: the least of the values that are not [nan], [nan]
    when there is none. *)
Definition series_min (l : list pyfloat) : pyfloat :=
  match dropna l with
  | [] => NaN
  | x :: t => fold_left fmin t x
  end.

(** The drawdown of a price [p] under the running maximum [m]. *)
Definition drawdown (p m : Q) : pyfloat := (Fin p / Fin m - Fin 1)%py.

(** [nav / nav.cummax() - 1], element by element. *)
Definition drawdowns (nav : list Q) : list pyfloat :=
  zip_with drawdown nav (cummax nav).

Definition max_dd (nav : list Q) : pyfloat := series_min (drawdowns nav).

(** ** Funds: the expected return *)

(** The builtins [max(a, b)] and [min(a, b)]: the first argument unless
    the second compares strictly beyond it. *)
Definition py_max (a b : pyfloat) : pyfloat := if (b >? a)%py then b else a.
Definition py_min (a b : pyfloat) : pyfloat := if (b <? a)%py then b else a.

Definition sharpe_adj (sharpe : pyfloat) : pyfloat :=
  py_min (py_max sharpe (Fin 0.5)) (Fin 1.2).

Definition expected_return_mf (cagr_3y sharpe : pyfloat) : pyfloat :=
  (cagr_3y * sharpe_adj sharpe)%py.

(** ** Equity: extraction and sector averages *)

(** The keys of a metric record and the field of the company record each
    is read from; [extract_metrics] and the loop of [sector_averages]
    write out the same dict literal. *)
Definition METRIC_FIELDS : list (string * string) := [
  ("pe", "trailingPE");
  ("roe", "returnOnEquity");
  ("margin", "operatingMargins");
  ("rev_growth", "revenueGrowth");
  ("de", "debtToEquity")
]%string.

(** The numeric fields of [info], read through [.get] only. A key bound
    to [None] and a key left out are the same metric set. *)
Definition extract_metrics (info : gmap string pyfloat) : MetricSet :=
  list_to_map (omap (fun kf => pair kf.1 <$> info !! kf.2) METRIC_FIELDS).

(** A column of [pd.DataFrame(rows)]. *)
Definition column (k : string) (rows : list MetricSet) : list (option pyfloat) :=
  map (fun r => r !! k) rows.

Definition is_none {A : Type} (v : option A) : bool :=
  match v with
  | None => true
  | Some _ => false
  end.

(** [.mean(numeric_only=True)] on one column. A column holding [None]
    only has dtype [object] and is left out of the result; otherwise the
    column is [float64], with [nan] for [None], and its mean skips the
    [nan]. *)
Definition column_mean (col : list (option pyfloat)) : option pyfloat :=
  if forallb is_none col then None
  else Some (series_mean (map (default NaN) col)).

(** [sector_averages], on the company records the peers' tickers fetch. *)
Definition sector_averages (infos : list (gmap string pyfloat)) : MetricSet :=
  let rows := map extract_metrics infos in
  list_to_map
    (omap (fun k => pair k <$> column_mean (column k rows))
          (map fst METRIC_FIELDS)).

(** ** Funds: the evaluation table and the whole analysis *)

(** The [Metric] and [Verdict] columns of [mf_metrics]. *)
Definition mf_metrics (cagr_1y cagr_3y volatility sharpe max_dd : pyfloat)
    : list (string * option string) := [
  ("1Y CAGR"%string, mf_verdict "1Y CAGR" cagr_1y);
  ("3Y CAGR"%string, mf_verdict "3Y CAGR" cagr_3y);
  ("Volatility"%string, mf_verdict "Volatility" volatility);
  ("Sharpe Ratio"%string, mf_verdict "Sharpe Ratio" sharpe);
  ("Max Drawdown"%string, mf_verdict "Max Drawdown" max_dd)
].

Record mf_report : Type := {
  report_cagr_1y : pyfloat;
  report_cagr_3y : pyfloat;
  report_volatility : pyfloat;
  report_sharpe : pyfloat;
  report_max_dd : pyfloat;
  report_expected_return : pyfloat;
  report_metrics : list (string * option string)
}.

(** The analysis of a fund from the sorted frame on: [None] when a
    statement raises. *)
Definition analyze_mutual_fund (power : pyfloat -> pyfloat -> pyfloat)
    (nav_df : list nav_row) : option mf_report :=
  let returns := pct_change (map row_nav nav_df) in
  c1 ← cagr_1y nav_df;
  c3 ← cagr_3y power nav_df;
  let vol := volatility returns in
  let sh := sharpe returns in
  let dd := max_dd (map row_nav nav_df) in
  Some {| report_cagr_1y := c1;
          report_cagr_3y := c3;
          report_volatility := vol;
          report_sharpe := sh;
          report_max_dd := dd;
          report_expected_return := expected_return_mf c3 sh;
          report_metrics := mf_metrics c1 c3 vol sh dd |}.

(** ** Vocabulary of the statements *)

(** [chain prev l]: [l] never goes down, starting no lower than [prev]. *)
Fixpoint chain (prev : Q) (l : list Q) : Prop :=
  match l with
  | [] => True
  | x :: t => (prev <= x)%Q /\ chain x t
  end.

(** A flat or rising series. *)
Definition nondecreasing (l : list Q) : Prop :=
  match l with
  | [] => True
  | x :: t => chain x t
  end.

(** The condition under which the comparison calls the stock better:
    strictly below the sector for a lower-is-better metric, strictly
    above it for a higher-is-better one. *)
Definition strictly_better (meta : metric_meta) (s sec : pyfloat) : Prop :=
  (inverse meta = true /\ (s <? sec)%py = true) \/
  (inverse meta = false /\ (s >? sec)%py = true).

(** The definition of the P/E ratio in [METRIC_INFO]. *)
Definition PE_META : metric_meta :=
  {| label := "P/E Ratio"; inverse := true;
     range := "<15 Cheap | 15–25 Fair | >25 Expensive" |}.

(** [m] is the greatest element of [l]. *)
Definition greatest (m : Q) (l : list Q) : Prop :=
  In m l /\ forall x, In x l -> (x <= m)%Q.

(** The items of the table that [why_this_stock] files under the
    positives, and under the negatives. *)
Definition positive_item (stock sector : MetricSet)
    (item : string * metric_meta) : bool :=
  match stock !! item.1, sector !! item.1 with
  | Some s, Some sec => better item.2 s sec
  | _, _ => false
  end.

Definition negative_item (stock sector : MetricSet)
    (item : string * metric_meta) : bool :=
  match stock !! item.1, sector !! item.1 with
  | Some s, Some sec => negb (better item.2 s sec)
  | _, _ => false
  end.

(** The labels of the table, in its order. *)
Definition METRIC_LABELS : list string := map (fun i => label i.2) METRIC_INFO.

(** The sum of a list of rationals. *)
Definition Qsum (l : list Q) : Q := fold_right Qplus 0%Q l.

(** The rank of a verdict: Good above Average above Poor. *)
Definition verdict_rank (v : option string) : Z :=
  match v with
  | Some s => if String.eqb s GOOD then 2 else if String.eqb s AVERAGE then 1 else 0
  | None => 0
  end.

(** A frame in the order [sort_values("date")] leaves it in. *)
Definition date_sorted (nav_df : list nav_row) : Prop :=
  Sorted (fun a b => date_leb (row_date a) (row_date b) = true) nav_df.

(** Neither [nan] nor negative. *)
Definition not_negative (x : pyfloat) : Prop :=
  x = NaN \/ x = PInf \/ exists q, x = Fin q /\ (0 <= q)%Q.

(** * Properties *)

(** ** Order on numbers *)

Lemma Qltb_lt (a b : Q) : Qltb a b = true <-> (a < b)%Q.
Proof.
  unfold Qltb. rewrite negb_true_iff, <- not_true_iff_false, Qle_bool_iff.
  split; [apply Qnot_le_lt | apply Qlt_not_le].
Qed.

Lemma Qltb_ge (a b : Q) : Qltb a b = false <-> (b <= a)%Q.
Proof.
  unfold Qltb. rewrite negb_false_iff. apply Qle_bool_iff.
Qed.

Lemma feqb_not_flt (x y : pyfloat) :
  (x =? y)%py = true -> (x <? y)%py = false /\ (x >? y)%py = false.
Proof.
  unfold fgt.
  destruct x as [a| | |], y as [b| | |]; simpl; try discriminate; auto.
  intros H. apply Qeq_bool_iff in H.
  split; apply Qltb_ge; rewrite H; apply Qle_refl.
Qed.

(** ** The fund verdict classifier *)

Example mf_verdict_volatility_014 :
  mf_verdict "Volatility" (Fin 0.14) = Some GOOD.
Proof. reflexivity. Qed.

Example mf_verdict_volatility_018 :
  mf_verdict "Volatility" (Fin 0.18) = Some AVERAGE.
Proof. reflexivity. Qed.

Example mf_verdict_volatility_025 :
  mf_verdict "Volatility" (Fin 0.25) = Some POOR.
Proof. reflexivity. Qed.

Lemma band_verdicts_distinct : NoDup BAND_VERDICTS.
Proof.
  apply (bool_decide_unpack _). reflexivity.
Qed.

Ltac metric_cases H :=
  unfold MF_METRICS in H; simpl in H;
  repeat (destruct H as [H | H]; [subst |]); [.. | contradiction].

(** C2, as the code has it: the classifier has no test for [nan]. Every
    comparison with [nan] is false, so for each recognized metric a
    [nan] value falls through both threshold tests into the last band
    and is classified Poor. *)
Theorem mf_verdict_nan_is_poor (metric : string) :
  In metric MF_METRICS -> mf_verdict metric NaN = Some POOR.
Proof.
  intros H. metric_cases H; reflexivity.
Qed.

Lemma mf_verdict_nan_is_poor_witness :
  In "Sharpe Ratio"%string MF_METRICS /\
  mf_verdict "Sharpe Ratio" NaN = Some POOR.
Proof.
  split.
  - simpl. tauto.
  - apply mf_verdict_nan_is_poor. simpl. tauto.
Defined.

(** C2, refuted as stated: an undefined Sharpe ratio is given the band
    verdict Poor, not a separate "no verdict" result. *)
Lemma mf_verdict_nan_gets_a_band :
  mf_verdict "Sharpe Ratio" NaN = Some POOR /\ In POOR BAND_VERDICTS.
Proof.
  split; [reflexivity | simpl; tauto].
Qed.

Lemma mf_verdict_recognized (metric : string) (value : pyfloat) :
  In metric MF_METRICS ->
  exists v, In v BAND_VERDICTS /\ mf_verdict metric value = Some v.
Proof.
  intros H. metric_cases H; unfold mf_verdict; simpl;
    repeat match goal with
           | |- context [if ?b then _ else _] => destruct b
           end;
    eexists; (split; [| reflexivity]); simpl; tauto.
Qed.

Lemma mf_verdict_unrecognized (metric : string) (value : pyfloat) :
  ~ In metric MF_METRICS -> mf_verdict metric value = None.
Proof.
  intros H. unfold mf_verdict. simpl.
  assert (E : forall s, In s MF_METRICS -> String.eqb metric s = false).
  { intros s Hs. apply String.eqb_neq. intros ->. exact (H Hs). }
  rewrite !E by (simpl; tauto). reflexivity.
Qed.

(** C3, as the code has it: for a recognized metric and any value the
    classifier returns exactly one of Good, Average and Poor; for any
    other metric it raises nothing and returns [None]. *)
Theorem mf_verdict_band_or_none (metric : string) (value : pyfloat) :
  (In metric MF_METRICS ->
   exists v, In v BAND_VERDICTS /\ mf_verdict metric value = Some v) /\
  (~ In metric MF_METRICS -> mf_verdict metric value = None).
Proof.
  split; [apply mf_verdict_recognized | apply mf_verdict_unrecognized].
Qed.

(** C3, refuted as stated: an unrecognized metric is not a fatal error;
    the call returns [None]. *)
Lemma mf_verdict_unknown_metric_returns :
  ~ In "P/E Ratio"%string MF_METRICS /\
  mf_verdict "P/E Ratio" (Fin 20) = None.
Proof.
  split; [| reflexivity].
  unfold MF_METRICS. simpl. intros H.
  repeat (destruct H as [H | H]; [discriminate H |]). exact H.
Qed.

(** ** Equity: the sector comparison *)

Lemma better_iff (meta : metric_meta) (s sec : pyfloat) :
  better meta s sec = true <-> strictly_better meta s sec.
Proof.
  unfold better, strictly_better. destruct (inverse meta); split.
  - intros H. left. split; [reflexivity | exact H].
  - intros [[_ H] | [H _]]; [exact H | discriminate H].
  - intros H. right. split; [reflexivity | exact H].
  - intros [[H _] | [_ H]]; [discriminate H | exact H].
Qed.

Lemma better_tie (meta : metric_meta) (s sec : pyfloat) :
  (s =? sec)%py = true -> better meta s sec = false.
Proof.
  intros H. apply feqb_not_flt in H. destruct H as [Hlt Hgt].
  unfold better. destruct (inverse meta); assumption.
Qed.

Lemma comparison_row_in (stock sector : MetricSet) (item : string * metric_meta) :
  In item METRIC_INFO ->
  In (comparison_row_of stock sector item) (build_comparison stock sector).
Proof.
  intros H. unfold build_comparison. apply in_map. exact H.
Qed.

(** C5: when both values are present, the row's verdict is Better
    exactly when the stock is strictly below the sector average for a
    lower-is-better metric or strictly above it for a higher-is-better
    one, and Worse otherwise; equal values give Worse. The rows of
    [build_comparison] are these rows, one per metric definition. *)
Theorem comparison_verdict_strict
    (stock sector : MetricSet) (k : string) (meta : metric_meta)
    (s sec : pyfloat) :
  stock !! k = Some s ->
  sector !! k = Some sec ->
  let row := comparison_row_of stock sector (k, meta) in
  (Verdict row = BETTER <-> strictly_better meta s sec) /\
  (Verdict row = WORSE <-> ~ strictly_better meta s sec) /\
  ((s =? sec)%py = true -> Verdict row = WORSE) /\
  (In (k, meta) METRIC_INFO -> In row (build_comparison stock sector)).
Proof.
  intros Hs Hsec row.
  assert (V : Verdict row = if better meta s sec then BETTER else WORSE).
  { subst row. unfold comparison_row_of. simpl. rewrite Hs, Hsec. reflexivity. }
  rewrite V. clear V.
  split; [| split; [| split]].
  - split.
    + destruct (better meta s sec) eqn:E; intros H.
      * apply better_iff. exact E.
      * discriminate H.
    + intros H. apply better_iff in H. rewrite H. reflexivity.
  - split.
    + destruct (better meta s sec) eqn:E; intros H.
      * discriminate H.
      * intros B. apply better_iff in B. congruence.
    + intros H. destruct (better meta s sec) eqn:E; [| reflexivity].
      apply better_iff in E. contradiction.
  - intros H. rewrite (better_tie _ _ _ H). reflexivity.
  - intros H. apply comparison_row_in. exact H.
Qed.

Lemma comparison_verdict_strict_witness :
  Verdict (comparison_row_of {["pe" := Fin 10]} {["pe" := Fin 20]}
             ("pe"%string, PE_META)) = BETTER.
Proof.
  refine (proj2 (proj1 (comparison_verdict_strict
                          {["pe" := Fin 10]} {["pe" := Fin 20]} "pe" PE_META
                          (Fin 10) (Fin 20) _ _)) _).
  - reflexivity.
  - reflexivity.
  - left. split; reflexivity.
Defined.

(** The tie rule on the two lower-is-better metrics of the table. *)
Example comparison_lower_is_better :
  let verdicts stock sector := map Verdict (build_comparison stock sector) in
  verdicts {["pe" := Fin 10; "de" := Fin 10]} {["pe" := Fin 20; "de" := Fin 20]}
    = [BETTER; UNKNOWN; UNKNOWN; UNKNOWN; BETTER] /\
  verdicts {["pe" := Fin 20; "de" := Fin 20]} {["pe" := Fin 10; "de" := Fin 10]}
    = [WORSE; UNKNOWN; UNKNOWN; UNKNOWN; WORSE] /\
  verdicts {["pe" := Fin 10; "de" := Fin 10]} {["pe" := Fin 10; "de" := Fin 10]}
    = [WORSE; UNKNOWN; UNKNOWN; UNKNOWN; WORSE].
Proof. vm_compute. auto. Qed.

Section Narrative.

Variables stock sector : MetricSet.

(** A label reaches a group only from an item whose two values are
    present. *)
Lemma why_step_fold_label (items : list (string * metric_meta))
    (acc : list string * list string) (l : string) :
  In l (fold_left (why_step stock sector) items acc).1 \/
  In l (fold_left (why_step stock sector) items acc).2 ->
  In l acc.1 \/ In l acc.2 \/
  exists k meta s sec,
    In (k, meta) items /\ label meta = l /\
    stock !! k = Some s /\ sector !! k = Some sec.
Proof.
  revert acc. induction items as [| [k meta] items IH]; intros acc H.
  - simpl in H. tauto.
  - simpl in H. apply IH in H. clear IH.
    destruct acc as [pos neg]. unfold why_step in H.
    destruct (stock !! k) as [s |] eqn:Es;
      destruct (sector !! k) as [sec |] eqn:Esec;
      try (destruct H as [H | [H | (k' & m' & s' & sec' & Hin & R)]];
           [ tauto | tauto
           | right; right; exists k', m', s', sec'; simpl; tauto ]).
    assert (Hnew : In l pos \/ In l neg \/ label meta = l \/
                   exists k' m' s' sec',
                     In (k', m') items /\ label m' = l /\
                     stock !! k' = Some s' /\ sector !! k' = Some sec').
    { destruct (better meta s sec); simpl in H;
        rewrite ?in_app_iff in H; simpl in H; tauto. }
    destruct Hnew as [Hl | [Hl | [Hl | (k' & m' & s' & sec' & Hin & R)]]].
    + tauto.
    + tauto.
    + right; right. exists k, meta, s, sec. simpl. tauto.
    + right; right. exists k', m', s', sec'. simpl. tauto.
Qed.

End Narrative.

Lemma METRIC_INFO_label_key (k k' : string) (meta meta' : metric_meta) :
  In (k, meta) METRIC_INFO -> In (k', meta') METRIC_INFO ->
  label meta = label meta' -> k = k'.
Proof.
  unfold METRIC_INFO. simpl. intros H H' E.
  repeat (destruct H as [H | H]; [inversion H; subst; clear H |]);
    try contradiction;
    repeat (destruct H' as [H' | H']; [inversion H'; subst; clear H' |]);
    try contradiction; simpl in E; solve [reflexivity | discriminate E].
Qed.

(** C6: a metric whose stock value or sector value is absent gets the
    verdict "—" in its row of [build_comparison], which is neither
    Better nor Worse, and its label is in neither the positives nor the
    negatives that [why_this_stock] collects. *)
Theorem absent_metric_unknown_and_excluded
    (stock sector : MetricSet) (k : string) (meta : metric_meta) :
  In (k, meta) METRIC_INFO ->
  stock !! k = None \/ sector !! k = None ->
  let row := comparison_row_of stock sector (k, meta) in
  In row (build_comparison stock sector) /\
  Verdict row = UNKNOWN /\
  UNKNOWN <> BETTER /\ UNKNOWN <> WORSE /\
  ~ In (label meta) (why_groups stock sector).1 /\
  ~ In (label meta) (why_groups stock sector).2.
Proof.
  intros Hin Habs row. subst row.
  assert (Hex : ~ (In (label meta) (why_groups stock sector).1 \/
                   In (label meta) (why_groups stock sector).2)).
  { intros H. unfold why_groups in H. apply why_step_fold_label in H.
    destruct H as [H | [H | (k' & m' & s' & sec' & Hin' & El & Es & Esec)]];
      [destruct H | destruct H |].
    assert (k' = k) by (eapply METRIC_INFO_label_key; eassumption).
    subst k'. destruct Habs; congruence. }
  repeat split.
  - apply comparison_row_in. exact Hin.
  - unfold comparison_row_of. simpl.
    destruct Habs as [-> | ->]; [reflexivity |].
    destruct (stock !! k); reflexivity.
  - discriminate.
  - discriminate.
  - tauto.
  - tauto.
Qed.

Lemma absent_metric_unknown_and_excluded_witness :
  Verdict (comparison_row_of {["pe" := Fin 10]} ∅ ("pe"%string, PE_META))
    = UNKNOWN.
Proof.
  apply (absent_metric_unknown_and_excluded {["pe" := Fin 10]} ∅ "pe" PE_META).
  - simpl. tauto.
  - right. reflexivity.
Defined.

(** With nothing to compare, the summary is the neutral sentence. *)
Example why_this_stock_neutral :
  why_this_stock ∅ ∅
  = "The stock performs broadly in line with sector peers."%string.
Proof. reflexivity. Qed.

Example why_this_stock_both_groups :
  why_this_stock {["pe" := Fin 10; "roe" := Fin 0.20; "de" := Fin 2]}
                 {["pe" := Fin 20; "roe" := Fin 0.25]}
  = "Strengths: P/E Ratio. Weaknesses: ROE."%string.
Proof. vm_compute. reflexivity. Qed.

(** ** Equity: the expected return *)

Lemma Qltb_comp (a b b' : Q) : (b == b')%Q -> Qltb a b = Qltb a b'.
Proof.
  intros E. unfold Qltb. rewrite E. reflexivity.
Qed.

(** [x or 0] keeps the value of a finite number and reads an absent one
    as zero. *)
Lemma or_zero_finite_or_absent (v : option pyfloat) (q : option Q) :
  v = Fin <$> q ->
  exists q', or_zero v = Fin q' /\ (q' == default 0 q)%Q.
Proof.
  intros ->. destruct q as [q |]; simpl.
  - destruct (Qeq_bool q 0) eqn:E.
    + exists 0%Q. split; [reflexivity |].
      apply Qeq_bool_iff in E. symmetry. exact E.
    + exists q. split; reflexivity.
  - exists 0%Q. split; reflexivity.
Qed.

Lemma or_zero_is_finite (v : option pyfloat) :
  (forall x, v = Some x -> is_finite x = true) ->
  is_finite (or_zero v) = true.
Proof.
  intros H. destruct v as [[q | | |] |]; simpl; try reflexivity;
    try (specialize (H _ eq_refl); discriminate H).
  destruct (Qeq_bool q 0); reflexivity.
Qed.

Lemma roe_bonus_is_finite (roe : pyfloat) : is_finite (roe_bonus roe) = true.
Proof. unfold roe_bonus. destruct (roe >? Fin 0.15)%py; reflexivity. Qed.

Lemma de_penalty_is_finite (de : pyfloat) : is_finite (de_penalty de) = true.
Proof. unfold de_penalty. destruct (de >? Fin 1)%py; reflexivity. Qed.

Lemma fadd_is_finite (x y : pyfloat) :
  is_finite x = true -> is_finite y = true -> is_finite (x + y)%py = true.
Proof. destruct x, y; simpl; intros; congruence. Qed.

Lemma fsub_is_finite (x y : pyfloat) :
  is_finite x = true -> is_finite y = true -> is_finite (x - y)%py = true.
Proof. destruct x, y; simpl; intros; congruence. Qed.

(** C9: with each of the three inputs a finite number or absent, the
    equity expected return is revenue growth (0 when absent), plus 0.03
    exactly when ROE exceeds 0.15, minus 0.02 exactly when debt/equity
    exceeds 1; nothing clamps the result. *)
Theorem expected_return_stock_formula
    (stock : MetricSet) (rev roe de : option Q) :
  stock !! "rev_growth" = Fin <$> rev ->
  stock !! "roe" = Fin <$> roe ->
  stock !! "de" = Fin <$> de ->
  exists q,
    expected_return_stock stock = Fin q /\
    (q == default 0 rev
          + (if Qltb 0.15 (default 0 roe) then 0.03 else 0)
          - (if Qltb 1 (default 0 de) then 0.02 else 0))%Q.
Proof.
  intros Hrev Hroe Hde. unfold expected_return_stock.
  destruct (or_zero_finite_or_absent _ _ Hrev) as (r & -> & Er).
  destruct (or_zero_finite_or_absent _ _ Hroe) as (e & -> & Ee).
  destruct (or_zero_finite_or_absent _ _ Hde) as (d & -> & Ed).
  unfold roe_bonus, de_penalty, fgt. simpl.
  rewrite (Qltb_comp _ _ _ Ee), (Qltb_comp _ _ _ Ed).
  destruct (Qltb 0.15 (default 0%Q roe)), (Qltb 1 (default 0%Q de)); simpl;
    eexists; (split; [reflexivity |]);
    rewrite !Qred_correct, Er; unfold Qminus; reflexivity.
Qed.

Lemma expected_return_stock_formula_witness :
  exists q,
    expected_return_stock
      {["rev_growth" := Fin 0.08; "roe" := Fin 0.20; "de" := Fin 1.5]} = Fin q /\
    (q == 0.08 + 0.03 - 0.02)%Q.
Proof.
  apply (expected_return_stock_formula
           {["rev_growth" := Fin 0.08; "roe" := Fin 0.20; "de" := Fin 1.5]}
           (Some 0.08%Q) (Some 0.20%Q) (Some 1.5%Q)); reflexivity.
Defined.

Example expected_return_stock_009 :
  expected_return_stock
    {["rev_growth" := Fin 0.08; "roe" := Fin 0.20; "de" := Fin 1.5]} = Fin 0.09.
Proof. vm_compute. reflexivity. Qed.

Example expected_return_stock_negative :
  (expected_return_stock {["rev_growth" := Fin (-0.10); "de" := Fin 2]}
   =? Fin (-0.12))%py = true.
Proof. vm_compute. reflexivity. Qed.

Lemma expected_return_stock_insert_zero (stock : MetricSet) (k : string) :
  stock !! k = None ->
  expected_return_stock stock = expected_return_stock (<[k := Fin 0]> stock).
Proof.
  intros H. unfold expected_return_stock.
  assert (E : forall k', or_zero (<[k := Fin 0]> stock !! k')
                         = or_zero (stock !! k')).
  { intros k'. destruct (decide (k = k')) as [<- | Hne].
    - rewrite lookup_insert_eq, H. reflexivity.
    - rewrite lookup_insert_ne by exact Hne. reflexivity. }
  rewrite !E. reflexivity.
Qed.

(** C10: the equity expected return is defined on every metric set. An
    absent revenue growth, ROE or debt/equity counts as 0: the result is
    the one obtained with the key bound to 0, an absent ROE adds no bonus,
    an absent debt/equity subtracts no penalty, and with all three absent
    the result is 0. When the values present are finite numbers, so is
    the result. *)
Theorem expected_return_stock_total (stock : MetricSet) :
  (forall k, stock !! k = None ->
     expected_return_stock stock
     = expected_return_stock (<[k := Fin 0]> stock)) /\
  (stock !! "roe" = None ->
     expected_return_stock stock
     = (or_zero (stock !! "rev_growth") + Fin 0
        - de_penalty (or_zero (stock !! "de")))%py) /\
  (stock !! "de" = None ->
     expected_return_stock stock
     = (or_zero (stock !! "rev_growth")
        + roe_bonus (or_zero (stock !! "roe")) - Fin 0)%py) /\
  (stock !! "rev_growth" = None -> stock !! "roe" = None ->
   stock !! "de" = None -> expected_return_stock stock = Fin 0) /\
  ((forall k v, stock !! k = Some v -> is_finite v = true) ->
   is_finite (expected_return_stock stock) = true).
Proof.
  split; [| split; [| split; [| split]]].
  - intros k. apply expected_return_stock_insert_zero.
  - intros H. unfold expected_return_stock. rewrite H. reflexivity.
  - intros H. unfold expected_return_stock. rewrite H. reflexivity.
  - intros H1 H2 H3. unfold expected_return_stock.
    rewrite H1, H2, H3. reflexivity.
  - intros H. unfold expected_return_stock.
    apply fsub_is_finite; [apply fadd_is_finite |].
    + apply or_zero_is_finite. intros x Hx. exact (H _ _ Hx).
    + apply roe_bonus_is_finite.
    + apply de_penalty_is_finite.
Qed.

Example expected_return_stock_empty : expected_return_stock ∅ = Fin 0.
Proof. reflexivity. Qed.

(** ** Funds: the expected return *)

Lemma sharpe_adj_clamp (sharpe : pyfloat) :
  sharpe_adj sharpe
  = if (sharpe <? Fin 0.5)%py then Fin 0.5
    else if (sharpe >? Fin 1.2)%py then Fin 1.2
    else sharpe.
Proof.
  unfold sharpe_adj, py_max, py_min, fgt.
  destruct (sharpe <? Fin 0.5)%py eqn:E; [reflexivity |].
  reflexivity.
Qed.

Lemma sharpe_adj_bounds (sharpe : pyfloat) :
  is_nan sharpe = false ->
  (Fin 0.5 <=? sharpe_adj sharpe)%py = true /\
  (sharpe_adj sharpe <=? Fin 1.2)%py = true.
Proof.
  intros Hn. rewrite sharpe_adj_clamp. unfold fgt.
  destruct sharpe as [q | | |]; simpl in *; try discriminate Hn;
    try (split; reflexivity).
  destruct (Qltb q 0.5) eqn:E1; [split; reflexivity |].
  destruct (Qltb 1.2 q) eqn:E2; [split; reflexivity |].
  apply Qltb_ge in E1, E2. simpl.
  split; apply Qle_bool_iff; assumption.
Qed.

Lemma fmul_nan_l (y : pyfloat) : (NaN * y)%py = NaN.
Proof. destruct y; reflexivity. Qed.

Lemma fmul_nan_r (x : pyfloat) : (x * NaN)%py = NaN.
Proof. destruct x; reflexivity. Qed.

Example expected_return_mf_in_range :
  expected_return_mf (Fin 0.10) (Fin 0.7) = Fin 0.07.
Proof. vm_compute. reflexivity. Qed.

Example expected_return_mf_clamps_low :
  (expected_return_mf (Fin 0.10) (Fin (-3)) =? Fin 0.05)%py = true.
Proof. vm_compute. reflexivity. Qed.

Example expected_return_mf_clamps_infinite_sharpe :
  (expected_return_mf (Fin 0.10) PInf =? Fin 0.12)%py = true.
Proof. vm_compute. reflexivity. Qed.

(** ** Funds: windowed CAGR *)

Lemma date_max_fold_in (l : list date) (d : date) :
  let m := fold_left (fun m x => if date_leb m x then x else m) l d in
  m = d \/ In m l.
Proof.
  revert d. induction l as [| x l IH]; intros d; simpl.
  - left. reflexivity.
  - destruct (IH (if date_leb d x then x else d)) as [E | Hin].
    + rewrite E. destruct (date_leb d x); auto.
    + auto.
Qed.

Lemma date_max_in (l : list date) (m : date) : date_max l = Some m -> In m l.
Proof.
  destruct l as [| d l]; simpl; intros H; [discriminate H |].
  injection H as <-.
  destruct (date_max_fold_in l d) as [E | Hin];
    [left; symmetry; exact E | right; exact Hin].
Qed.

Lemma date_leb_spec (a b : date) :
  date_leb a b = true <->
  year a < year b \/
  (year a = year b /\
   (month a < month b \/ (month a = month b /\ day a <= day b))).
Proof.
  unfold date_leb.
  destruct (Z.ltb_spec (year a) (year b));
    [split; [intros _; left; assumption | reflexivity] |].
  destruct (Z.ltb_spec (year b) (year a)); [split; [discriminate | lia] |].
  destruct (Z.ltb_spec (month a) (month b)); [split; [lia | reflexivity] |].
  destruct (Z.ltb_spec (month b) (month a)); [split; [discriminate | lia] |].
  rewrite Z.leb_le. lia.
Qed.

Lemma date_leb_refl (a : date) : date_leb a a = true.
Proof. apply date_leb_spec. lia. Qed.

Lemma date_leb_trans (a b c : date) :
  date_leb a b = true -> date_leb b c = true -> date_leb a c = true.
Proof. rewrite !date_leb_spec. lia. Qed.

Lemma date_leb_total (a b : date) :
  date_leb a b = false -> date_leb b a = true.
Proof.
  intros H. apply not_true_iff_false in H.
  rewrite date_leb_spec in H. apply date_leb_spec. lia.
Qed.

Lemma date_max_fold_greatest (l : list date) (d : date) :
  let m := fold_left (fun m x => if date_leb m x then x else m) l d in
  date_leb d m = true /\ forall x, In x l -> date_leb x m = true.
Proof.
  revert d. induction l as [| a l IH]; intros d; simpl.
  - split; [apply date_leb_refl | intros x []].
  - destruct (IH (if date_leb d a then a else d)) as [Hd Hl].
    assert (Hstep : date_leb d (if date_leb d a then a else d) = true /\
                    date_leb a (if date_leb d a then a else d) = true).
    { destruct (date_leb d a) eqn:E.
      - split; [exact E | apply date_leb_refl].
      - split; [apply date_leb_refl | apply date_leb_total; exact E]. }
    destruct Hstep as [H1 H2].
    split; [eapply date_leb_trans; eassumption |].
    intros x [<- | Hx]; [eapply date_leb_trans; eassumption | apply Hl; exact Hx].
Qed.

(** [nav_df["date"].max()] is a date of the frame, and the latest. *)
Lemma date_max_greatest (l : list date) (m : date) :
  date_max l = Some m ->
  In m l /\ forall d, In d l -> date_leb d m = true.
Proof.
  intros H. split; [apply date_max_in; exact H |].
  destruct l as [| d0 l]; [discriminate H |].
  simpl in H. injection H as <-.
  destruct (date_max_fold_greatest l d0) as [H0 Hl].
  intros d [<- | Hd]; [exact H0 | apply Hl; exact Hd].
Qed.

Lemma window_spec (nav_df : list nav_row) (m : date) (k : Z) (r : nav_row) :
  date_max (map row_date nav_df) = Some m ->
  In r (window k nav_df) <->
  In r nav_df /\ date_leb (minus_years m k) (row_date r) = true.
Proof.
  intros Hm. unfold window. rewrite Hm. apply filter_In.
Qed.

Lemma minus_years_leb (m : date) (k : Z) :
  0 <= k -> date_leb (minus_years m k) m = true.
Proof.
  intros Hk. unfold date_leb, minus_years. simpl.
  destruct (Z.ltb_spec (year m - k) (year m)); [reflexivity |].
  destruct (Z.ltb_spec (year m) (year m - k)); [lia |].
  rewrite Z.ltb_irrefl.
  destruct ((month m =? 2) && (day m =? 29) && negb (is_leap (year m - k)))
    eqn:E.
  - apply andb_prop in E. destruct E as [E _].
    apply andb_prop in E. destruct E as [_ E].
    apply Z.eqb_eq in E. rewrite E. reflexivity.
  - apply Z.leb_refl.
Qed.

(** On a frame with a row at least, the window holds the row of the
    latest date, so neither [.iloc[0]] nor [.iloc[-1]] can fail. *)
Lemma window_not_nil (years : Z) (nav_df : list nav_row) :
  0 <= years -> nav_df <> [] -> window years nav_df <> [].
Proof.
  intros Hy Hne. unfold window.
  destruct (date_max (map row_date nav_df)) as [m |] eqn:Em.
  - apply date_max_in in Em. apply in_map_iff in Em.
    destruct Em as (r & Er & Hr).
    intros Hnil.
    assert (Hin : In r (List.filter
                          (fun r => date_leb (minus_years m years) (row_date r))
                          nav_df)).
    { apply filter_In. split; [exact Hr |].
      rewrite Er. apply minus_years_leb. exact Hy. }
    rewrite Hnil in Hin. destruct Hin.
  - destruct nav_df; [congruence | discriminate Em].
Qed.

Lemma iloc_ends (df : list nav_row) :
  df <> [] ->
  exists f l, iloc_first df = Some f /\ iloc_last df = Some l /\
              (length df = 1%nat -> f = l).
Proof.
  intros Hne. unfold iloc_first, iloc_last.
  destruct df as [| r df]; [congruence |].
  destruct (last (r :: df)) as [r' |] eqn:El.
  - exists (row_nav r), (row_nav r'). simpl.
    split; [reflexivity |]. split; [reflexivity |].
    intros Hlen. destruct df; [| discriminate Hlen].
    simpl in El. injection El as <-. reflexivity.
  - apply last_None in El. discriminate El.
Qed.

Lemma fdiv_finite (a b : Q) :
  ~ (b == 0)%Q -> (Fin a / Fin b)%py = Fin (Qred (a / b)).
Proof.
  intros Hb. simpl. destruct (Qeq_bool b 0) eqn:E; [| reflexivity].
  apply Qeq_bool_iff in E. contradiction.
Qed.

Lemma fdiv_by_zero (a b : Q) :
  (b == 0)%Q -> (Fin a / Fin b)%py = inf_of_sign (a ?= 0)%Q.
Proof.
  intros Hb. simpl. apply Qeq_bool_iff in Hb. rewrite Hb. reflexivity.
Qed.

(** The ratio of a value to itself, less one. *)
Lemma self_ratio_minus_one (a : Q) :
  ~ (a == 0)%Q -> (Fin a / Fin a - Fin 1)%py = Fin 0.
Proof.
  intros Ha. rewrite fdiv_finite by exact Ha. simpl.
  change (Fin 0) with (Fin (Qred 0)). f_equal.
  apply Qred_complete. rewrite Qred_correct. field. exact Ha.
Qed.

(** C4, as the code has it: on a frame with a row at least, the window
    of [k] years holds the rows dated no earlier than the latest date
    less [k] years, and is not empty. With [first] and [last] its end
    values, the 1-year CAGR is [last/first - 1] and the 3-year CAGR is
    [(last/first) ** (1/3) - 1]. Nothing tests the window: a first value
    other than zero gives the finite quotient, which is 0 on a window of
    a single point, and a first value of zero gives [+inf], [-inf] or
    [nan] after the sign of [last]. *)
Theorem cagr_window_formula
    (power : pyfloat -> pyfloat -> pyfloat) (nav_df : list nav_row) :
  nav_df <> [] ->
  exists (m : date) (f1 l1 f3 l3 : Q),
    (In m (map row_date nav_df) /\
     forall r, In r nav_df -> date_leb (row_date r) m = true) /\
    (forall k r, In r (window k nav_df) <->
       In r nav_df /\ date_leb (minus_years m k) (row_date r) = true) /\
    iloc_first (window 1 nav_df) = Some f1 /\
    iloc_last (window 1 nav_df) = Some l1 /\
    iloc_first (window 3 nav_df) = Some f3 /\
    iloc_last (window 3 nav_df) = Some l3 /\
    cagr_1y nav_df = Some (Fin l1 / Fin f1 - Fin 1)%py /\
    cagr_3y power nav_df
      = Some (power (Fin l3 / Fin f3) (Fin 1 / Fin 3) - Fin 1)%py /\
    (~ (f1 == 0)%Q ->
       exists q, cagr_1y nav_df = Some (Fin q) /\ (q == l1 / f1 - 1)%Q) /\
    (~ (f1 == 0)%Q -> length (window 1 nav_df) = 1%nat ->
       cagr_1y nav_df = Some (Fin 0)) /\
    ((f1 == 0)%Q ->
       ((0 < l1)%Q -> cagr_1y nav_df = Some PInf) /\
       ((l1 < 0)%Q -> cagr_1y nav_df = Some NInf) /\
       ((l1 == 0)%Q -> cagr_1y nav_df = Some NaN)).
Proof.
  intros Hne.
  destruct (date_max (map row_date nav_df)) as [m |] eqn:Em;
    [| destruct nav_df; [congruence | discriminate Em]].
  destruct (iloc_ends (window 1 nav_df)) as (f1 & l1 & Hf1 & Hl1 & Hone);
    [apply window_not_nil; [lia | exact Hne] |].
  destruct (iloc_ends (window 3 nav_df)) as (f3 & l3 & Hf3 & Hl3 & _);
    [apply window_not_nil; [lia | exact Hne] |].
  exists m, f1, l1, f3, l3.
  assert (E1 : cagr_1y nav_df = Some (Fin l1 / Fin f1 - Fin 1)%py).
  { unfold cagr_1y. rewrite Hl1, Hf1. reflexivity. }
  split; [| split].
  - destruct (date_max_greatest _ _ Em) as [Hin Hmax].
    split; [exact Hin |].
    intros r Hr. apply Hmax, in_map. exact Hr.
  - intros k r. apply window_spec. exact Em.
  - repeat (split; [assumption |]).
    split; [| split; [| split]].
    + unfold cagr_3y. rewrite Hl3, Hf3. reflexivity.
    + intros Hz. rewrite E1, fdiv_finite by exact Hz.
      eexists. split; [reflexivity |].
      rewrite !Qred_correct. reflexivity.
    + intros Hz Hlen. rewrite E1, <- (Hone Hlen).
      rewrite self_ratio_minus_one by exact Hz. reflexivity.
    + intros Hz. rewrite E1, fdiv_by_zero by exact Hz.
      split; [| split]; intros H.
      * assert (E : (l1 ?= 0)%Q = Gt) by (apply Qgt_alt; exact H).
        rewrite E. reflexivity.
      * assert (E : (l1 ?= 0)%Q = Lt) by (apply Qlt_alt; exact H).
        rewrite E. reflexivity.
      * assert (E : (l1 ?= 0)%Q = Eq) by (apply Qeq_alt; exact H).
        rewrite E. reflexivity.
Qed.

Lemma cagr_window_formula_witness :
  exists f1 l1 : Q,
    iloc_first (window 1 [NavRow (Date 2023 1 2) 100; NavRow (Date 2024 1 2) 120])
      = Some f1 /\
    iloc_last (window 1 [NavRow (Date 2023 1 2) 100; NavRow (Date 2024 1 2) 120])
      = Some l1 /\
    cagr_1y [NavRow (Date 2023 1 2) 100; NavRow (Date 2024 1 2) 120]
      = Some (Fin l1 / Fin f1 - Fin 1)%py.
Proof.
  destruct (cagr_window_formula (fun x _ => x)
              [NavRow (Date 2023 1 2) 100; NavRow (Date 2024 1 2) 120])
    as (m & f1 & l1 & f3 & l3 & _ & _ & H1 & H2 & _ & _ & H5 & _).
  - discriminate.
  - exists f1, l1. repeat split; assumption.
Defined.

(** A year of NAVs from 100 to 120: the 1-year CAGR is one fifth. *)
Example cagr_1y_100_120 :
  cagr_1y [NavRow (Date 2023 1 2) 100; NavRow (Date 2023 7 3) 110; NavRow (Date 2024 1 2) 120]
  = Some (Fin (1 # 5)) /\ (Fin (1 # 5) =? Fin 0.20)%py = true.
Proof. split; reflexivity. Qed.

(** [.iloc] raises on the empty frame. *)
Example cagr_1y_empty : cagr_1y [] = None.
Proof. reflexivity. Qed.

(** C4, refuted as stated: a window of a single point gives the number 0,
    and a window whose first value is zero gives [+inf]; neither is an
    undefined signal. *)
Lemma cagr_1y_degenerate_windows :
  length (window 1 [NavRow (Date 2020 1 2) 100; NavRow (Date 2024 1 2) 120]) = 1%nat /\
  cagr_1y [NavRow (Date 2020 1 2) 100; NavRow (Date 2024 1 2) 120] = Some (Fin 0) /\
  iloc_first (window 1 [NavRow (Date 2023 6 1) 0; NavRow (Date 2024 1 2) 120]) = Some 0%Q /\
  cagr_1y [NavRow (Date 2023 6 1) 0; NavRow (Date 2024 1 2) 120] = Some PInf.
Proof. repeat split. Qed.

(** ** Funds: maximum drawdown *)

Section Order.

Implicit Types x y z : pyfloat.

Lemma fle_refl x : is_nan x = false -> (x <=? x)%py = true.
Proof.
  destruct x; simpl; intros H; try reflexivity; try discriminate H.
  apply Qle_bool_iff, Qle_refl.
Qed.

Lemma fle_trans x y z :
  (x <=? y)%py = true -> (y <=? z)%py = true -> (x <=? z)%py = true.
Proof.
  destruct x, y, z; simpl; intros H1 H2;
    try reflexivity; try discriminate H1; try discriminate H2.
  apply Qle_bool_iff. apply Qle_bool_iff in H1, H2.
  eapply Qle_trans; eassumption.
Qed.

Lemma flt_false_fle x y :
  is_nan x = false -> is_nan y = false ->
  (y <? x)%py = false -> (x <=? y)%py = true.
Proof.
  destruct x, y; simpl; intros Hx Hy H;
    try reflexivity; try discriminate.
  apply Qle_bool_iff, Qltb_ge. exact H.
Qed.

Lemma flt_fle x y : (x <? y)%py = true -> (x <=? y)%py = true.
Proof.
  destruct x, y; simpl; intros H; try reflexivity; try discriminate.
  apply Qle_bool_iff, Qlt_le_weak, Qltb_lt. exact H.
Qed.

End Order.

Lemma dropna_in (l : list pyfloat) (x : pyfloat) :
  In x (dropna l) <-> In x l /\ is_nan x = false.
Proof.
  unfold dropna. rewrite filter_In, negb_true_iff. reflexivity.
Qed.

Lemma fold_min_le (t : list pyfloat) (m : pyfloat) :
  is_nan m = false ->
  (forall x, In x t -> is_nan x = false) ->
  let r := fold_left fmin t m in
  is_nan r = false /\ (r <=? m)%py = true /\
  (forall x, In x t -> (r <=? x)%py = true) /\
  (r = m \/ In r t).
Proof.
  revert m. induction t as [| a t IH]; intros m Hm Ht; simpl.
  - repeat split; try assumption.
    + apply fle_refl. exact Hm.
    + intros x [].
    + left. reflexivity.
  - assert (Ha : is_nan a = false) by (apply Ht; left; reflexivity).
    change (fmin m a) with (if (a <? m)%py then a else m).
    set (m' := if (a <? m)%py then a else m).
    assert (Hm' : is_nan m' = false) by (subst m'; destruct (a <? m)%py; assumption).
    assert (Hle : (m' <=? m)%py = true /\ (m' <=? a)%py = true).
    { subst m'. destruct (a <? m)%py eqn:E.
      - split; [apply flt_fle; exact E | apply fle_refl; exact Ha].
      - split; [apply fle_refl; exact Hm | apply flt_false_fle; assumption]. }
    destruct (IH m' Hm' (fun x Hx => Ht x (or_intror Hx)))
      as (Hr & Hrm & Hrt & Hin).
    destruct Hle as [Hle1 Hle2].
    repeat split.
    + exact Hr.
    + eapply fle_trans; eassumption.
    + intros x [<- | Hx].
      * eapply fle_trans; eassumption.
      * apply Hrt. exact Hx.
    + destruct Hin as [E | Hin]; [| right; right; exact Hin].
      rewrite E. subst m'. destruct (a <? m)%py; [right; left | left]; reflexivity.
Qed.

(** [Series.min()] is a lower bound of the values that are not [nan],
    and is one of them when there is any. *)
Lemma series_min_spec (l : list pyfloat) (x : pyfloat) :
  In x l -> is_nan x = false ->
  (series_min l <=? x)%py = true /\
  In (series_min l) l /\ is_nan (series_min l) = false.
Proof.
  intros Hin Hx. unfold series_min.
  assert (Hd : In x (dropna l)) by (apply dropna_in; split; assumption).
  destruct (dropna l) as [| m t] eqn:E; [destruct Hd |].
  assert (Hall : forall y, In y (m :: t) -> In y l /\ is_nan y = false).
  { intros y Hy. apply dropna_in. rewrite E. exact Hy. }
  destruct (fold_min_le t m) as (Hr & Hrm & Hrt & Hmem).
  - apply Hall. left. reflexivity.
  - intros y Hy. apply Hall. right. exact Hy.
  - split; [| split].
    + destruct Hd as [<- | Hd]; [exact Hrm | apply Hrt; exact Hd].
    + destruct Hmem as [-> | Hmem].
      * apply Hall. left. reflexivity.
      * apply Hall. right. exact Hmem.
    + exact Hr.
Qed.

Lemma Qle_bool_false (a b : Q) : Qle_bool a b = false -> (b < a)%Q.
Proof.
  intros H. apply Qnot_le_lt. intros Hle.
  apply Qle_bool_iff in Hle. congruence.
Qed.

Lemma cummax_from_length (l : list Q) (m : Q) :
  length (cummax_from m l) = length l.
Proof.
  revert m. induction l as [| x l IH]; intros m; simpl; [reflexivity |].
  rewrite IH. reflexivity.
Qed.

Lemma cummax_length (l : list Q) : length (cummax l) = length l.
Proof.
  destruct l as [| x l]; simpl; [reflexivity |].
  rewrite cummax_from_length. reflexivity.
Qed.

(** [cummax_from m l] at [i]: the greatest of [m] and the first [i + 1]
    elements of [l]. *)
Lemma cummax_from_lookup (l : list Q) (m : Q) (i : nat) (m' : Q) :
  cummax_from m l !! i = Some m' ->
  (m' = m \/ In m' (take (S i) l)) /\ (m <= m')%Q /\
  (forall x, In x (take (S i) l) -> (x <= m')%Q).
Proof.
  revert m i. induction l as [| x l IH]; intros m i H; [discriminate H |].
  simpl in H.
  set (m1 := if Qle_bool m x then x else m) in H.
  assert (Hm1 : (m1 = m \/ m1 = x) /\ (m <= m1)%Q /\ (x <= m1)%Q).
  { subst m1. destruct (Qle_bool m x) eqn:E.
    - apply Qle_bool_iff in E.
      split; [right; reflexivity |]. split; [exact E | apply Qle_refl].
    - apply Qle_bool_false in E.
      split; [left; reflexivity |].
      split; [apply Qle_refl | apply Qlt_le_weak; exact E]. }
  destruct Hm1 as (Hor & Hmm1 & Hxm1).
  destruct i as [| j].
  - simpl in H. injection H as <-. simpl.
    split; [| split].
    + destruct Hor as [-> | ->]; [left | right; left]; reflexivity.
    + exact Hmm1.
    + intros y [<- | []]. exact Hxm1.
  - simpl in H. apply IH in H. destruct H as (Hin & Hle & Hall).
    change (take (S (S j)) (x :: l)) with (x :: take (S j) l).
    split; [| split].
    + destruct Hin as [-> | Hin].
      * destruct Hor as [-> | ->]; [left | right; left]; reflexivity.
      * right. right. exact Hin.
    + eapply Qle_trans; eassumption.
    + intros y [<- | Hy].
      * eapply Qle_trans; eassumption.
      * apply Hall. exact Hy.
Qed.

(** [Series.cummax()] at [i] is the greatest of the first [i + 1]
    values. *)
Lemma cummax_lookup (nav : list Q) (i : nat) (m : Q) :
  cummax nav !! i = Some m -> greatest m (take (S i) nav).
Proof.
  destruct nav as [| p t]; [discriminate |].
  destruct i as [| j]; simpl; intros H.
  - injection H as <-. split; [left; reflexivity |].
    intros x [<- | []]. apply Qle_refl.
  - apply cummax_from_lookup in H. destruct H as (Hin & Hle & Hall).
    split.
    + destruct Hin as [-> | Hin]; [left; reflexivity | right; exact Hin].
    + intros x [<- | Hx]; [exact Hle | apply Hall; exact Hx].
Qed.

Lemma drawdowns_lookup (nav : list Q) (i : nat) (p : Q) :
  nav !! i = Some p ->
  exists m, greatest m (take (S i) nav) /\
            drawdowns nav !! i = Some (drawdown p m).
Proof.
  intros Hp.
  assert (Hlt : (i < length (cummax nav))%nat).
  { rewrite cummax_length. eapply lookup_lt_Some. exact Hp. }
  apply lookup_lt_is_Some in Hlt. destruct Hlt as [m Hm].
  exists m. split; [apply cummax_lookup; exact Hm |].
  unfold drawdowns. rewrite lookup_zip_with, Hp. simpl.
  rewrite Hm. reflexivity.
Qed.

Lemma drawdown_below_zero_max (p m : Q) :
  (m == 0)%Q -> (p < 0)%Q -> drawdown p m = NInf.
Proof.
  intros Hm Hp. unfold drawdown. rewrite fdiv_by_zero by exact Hm.
  assert (E : (p ?= 0)%Q = Lt) by (apply Qlt_alt; exact Hp).
  rewrite E. reflexivity.
Qed.

Lemma drawdown_zero_self (p : Q) : (p == 0)%Q -> drawdown p p = NaN.
Proof.
  intros Hp. unfold drawdown. rewrite fdiv_by_zero by exact Hp.
  assert (E : (p ?= 0)%Q = Eq) by (apply Qeq_alt; exact Hp).
  rewrite E. reflexivity.
Qed.

(** Past a running maximum of zero, the first price other than zero has
    a drawdown of 0 (above zero) or [-inf] (below). *)
Lemma drawdowns_from_nonpos (l : list Q) (m : Q) :
  (m == 0)%Q ->
  (exists p, In p l /\ ~ (p == 0)%Q) ->
  exists x, In x (zip_with drawdown l (cummax_from m l)) /\
            (x <=? Fin 0)%py = true.
Proof.
  revert m. induction l as [| p t IH]; intros m Hm (q & Hq & Hnz);
    [destruct Hq |].
  simpl. destruct (Qeq_dec p 0) as [Hp | Hp].
  - assert (Hm1 : ((if Qle_bool m p then p else m) == 0)%Q)
      by (destruct (Qle_bool m p); assumption).
    destruct (IH _ Hm1) as (x & Hx & Hle).
    + exists q. split; [| exact Hnz].
      destruct Hq as [<- | Hq]; [contradiction | exact Hq].
    + exists x. split; [right; exact Hx | exact Hle].
  - destruct (Qle_bool m p) eqn:E.
    + exists (Fin 0). split; [| reflexivity].
      left. apply self_ratio_minus_one. exact Hp.
    + exists NInf. split; [| reflexivity].
      left. apply drawdown_below_zero_max; [exact Hm |].
      apply Qle_bool_false in E. rewrite Hm in E. exact E.
Qed.

Lemma drawdowns_nonpos (nav : list Q) :
  (exists p, In p nav /\ ~ (p == 0)%Q) ->
  exists x, In x (drawdowns nav) /\ (x <=? Fin 0)%py = true.
Proof.
  intros (q & Hq & Hnz). destruct nav as [| p t]; [destruct Hq |].
  unfold drawdowns. simpl. destruct (Qeq_dec p 0) as [Hp | Hp].
  - destruct (drawdowns_from_nonpos t p Hp) as (x & Hx & Hle).
    + exists q. split; [| exact Hnz].
      destruct Hq as [<- | Hq]; [contradiction | exact Hq].
    + exists x. split; [right; exact Hx | exact Hle].
  - exists (Fin 0). split; [| reflexivity].
    left. apply self_ratio_minus_one. exact Hp.
Qed.

Lemma cummax_from_chain (l : list Q) (m : Q) : chain m l -> cummax_from m l = l.
Proof.
  revert m. induction l as [| x l IH]; intros m H; simpl; [reflexivity |].
  destruct H as [Hle Hc]. apply Qle_bool_iff in Hle. rewrite Hle.
  rewrite (IH _ Hc). reflexivity.
Qed.

(** On a series that never goes down each price is its own running
    maximum. *)
Lemma drawdowns_nondecreasing (nav : list Q) :
  nondecreasing nav -> drawdowns nav = map (fun p => drawdown p p) nav.
Proof.
  intros H. unfold drawdowns.
  assert (E : cummax nav = nav).
  { destruct nav as [| p t]; [reflexivity |].
    simpl. rewrite (cummax_from_chain _ _ H). reflexivity. }
  rewrite E. apply zip_with_diag.
Qed.

Lemma fle_not_nan (x y : pyfloat) : (x <=? y)%py = true -> is_nan x = false.
Proof. destruct x, y; simpl; intros H; try discriminate; reflexivity. Qed.

Lemma drawdown_self (p : Q) : ~ (p == 0)%Q -> drawdown p p = Fin 0.
Proof. apply self_ratio_minus_one. Qed.

Lemma drawdown_zero_zero (p m : Q) :
  (p == 0)%Q -> (m == 0)%Q -> drawdown p m = NaN.
Proof.
  intros Hp Hm. unfold drawdown. rewrite fdiv_by_zero by exact Hm.
  assert (E : (p ?= 0)%Q = Eq) by (apply Qeq_alt; exact Hp).
  rewrite E. reflexivity.
Qed.

(** Prices that are all zero under a running maximum of zero: every
    drawdown is [0/0 - 1]. *)
Lemma drawdowns_from_all_zero (l : list Q) (m : Q) :
  (m == 0)%Q -> (forall p, In p l -> (p == 0)%Q) ->
  forall x, In x (zip_with drawdown l (cummax_from m l)) -> x = NaN.
Proof.
  revert m. induction l as [| p t IH]; intros m Hm Hall x Hx; [destruct Hx |].
  simpl in Hx.
  assert (Hp : (p == 0)%Q) by (apply Hall; left; reflexivity).
  assert (Hm1 : ((if Qle_bool m p then p else m) == 0)%Q)
    by (destruct (Qle_bool m p); assumption).
  destruct Hx as [<- | Hx].
  - apply drawdown_zero_zero; assumption.
  - apply (IH _ Hm1); [| exact Hx].
    intros q Hq. apply Hall. right. exact Hq.
Qed.

Lemma drawdowns_all_zero (nav : list Q) :
  (forall p, In p nav -> (p == 0)%Q) ->
  forall x, In x (drawdowns nav) -> x = NaN.
Proof.
  intros Hall x Hx. destruct nav as [| p t]; [destruct Hx |].
  assert (Hp : (p == 0)%Q) by (apply Hall; left; reflexivity).
  unfold drawdowns in Hx. simpl in Hx. destruct Hx as [<- | Hx].
  - apply drawdown_zero_zero; assumption.
  - apply (drawdowns_from_all_zero t p Hp); [| exact Hx].
    intros q Hq. apply Hall. right. exact Hq.
Qed.

Lemma series_min_all_nan (l : list pyfloat) :
  (forall x, In x l -> x = NaN) -> series_min l = NaN.
Proof.
  intros Hall. unfold series_min.
  destruct (dropna l) as [| x t] eqn:E; [reflexivity |].
  assert (Hx : In x (dropna l)) by (rewrite E; left; reflexivity).
  apply dropna_in in Hx. destruct Hx as [Hin Hn].
  rewrite (Hall _ Hin) in Hn. discriminate Hn.
Qed.

(** C7, as the code has it: the drawdown at each point is the price over
    the greatest price so far, less one, and the maximum drawdown is at
    most every drawdown that is not [nan]. On a series with a price other
    than zero it is one of the drawdowns and at most 0, and it is 0 when
    the series is flat or never goes down. On a series of zero prices
    every drawdown is [0/0 - 1] and the maximum drawdown is [nan]. *)
Theorem max_dd_spec (nav : list Q) :
  (forall i p, nav !! i = Some p ->
     exists m, greatest m (take (S i) nav) /\
               drawdowns nav !! i = Some (Fin p / Fin m - Fin 1)%py) /\
  (forall x, In x (drawdowns nav) -> is_nan x = false ->
     (max_dd nav <=? x)%py = true) /\
  ((exists p, In p nav /\ ~ (p == 0)%Q) ->
     In (max_dd nav) (drawdowns nav) /\
     (max_dd nav <=? Fin 0)%py = true /\
     (nondecreasing nav -> max_dd nav = Fin 0)) /\
  ((forall p, In p nav -> (p == 0)%Q) -> max_dd nav = NaN).
Proof.
  split; [| split; [| split]].
  - intros i p Hp. apply drawdowns_lookup. exact Hp.
  - intros x Hx Hn. apply (series_min_spec _ _ Hx Hn).
  - intros Hnz.
    destruct (drawdowns_nonpos nav Hnz) as (x0 & Hx0 & Hle0).
    assert (Hn0 : is_nan x0 = false) by (eapply fle_not_nan; exact Hle0).
    destruct (series_min_spec _ _ Hx0 Hn0) as (Hmin0 & Hmem & Hnn).
    split; [exact Hmem |].
    split; [eapply fle_trans; [exact Hmin0 | exact Hle0] |].
    intros Hnd. unfold max_dd in *.
    rewrite (drawdowns_nondecreasing _ Hnd) in Hmem, Hnn |- *.
    apply in_map_iff in Hmem. destruct Hmem as (p & Ep & _).
    destruct (Qeq_dec p 0) as [Hp | Hp].
    + rewrite (drawdown_zero_self _ Hp) in Ep.
      rewrite <- Ep in Hnn. discriminate Hnn.
    + rewrite (drawdown_self _ Hp) in Ep. symmetry. exact Ep.
  - intros Hall. apply series_min_all_nan, drawdowns_all_zero. exact Hall.
Qed.

Lemma max_dd_spec_witness :
  (max_dd [100; 120; 90; 95; 150; 100]%Q <=? Fin 0)%py = true.
Proof.
  apply (max_dd_spec [100; 120; 90; 95; 150; 100]%Q).
  exists 100%Q. split; [left; reflexivity | discriminate].
Defined.

(** The series of the specification: running maxima, drawdowns, and a
    maximum drawdown of minus one third, within 0.0001 of -0.3333. *)
Example max_dd_example :
  cummax [100; 120; 90; 95; 150; 100]%Q = [100; 120; 120; 120; 150; 150]%Q /\
  drawdowns [100; 120; 90; 95; 150; 100]%Q
    = [Fin 0; Fin 0; Fin (-1 # 4); Fin (-5 # 24); Fin 0; Fin (-1 # 3)] /\
  max_dd [100; 120; 90; 95; 150; 100]%Q = Fin (-1 # 3) /\
  (Qabs ((-1 # 3) - (-0.3333)) < 0.0001)%Q.
Proof. repeat split. Qed.

Example max_dd_flat : max_dd [5; 5; 5]%Q = Fin 0.
Proof. reflexivity. Qed.

(** C7, refuted as stated: on the flat series of a single zero price the
    only drawdown is [0/0 - 1], the minimum skips it, and the result is
    [nan]: neither at most 0 nor 0. *)
Lemma max_dd_zero_series_is_nan :
  nondecreasing [0%Q] /\
  max_dd [0%Q] = NaN /\
  (max_dd [0%Q] <=? Fin 0)%py = false /\
  (max_dd [0%Q] =? Fin 0)%py = false.
Proof. repeat split. Qed.

(** ** Funds: the Sharpe ratio *)

Section Finite.

Implicit Types x y : pyfloat.

Lemma fadd_finite_inv x y :
  is_finite (x + y)%py = true -> is_finite x = true /\ is_finite y = true.
Proof. destruct x, y; simpl; intros H; try discriminate H; auto. Qed.

Lemma fsub_finite_inv x y :
  is_finite (x - y)%py = true -> is_finite x = true /\ is_finite y = true.
Proof. destruct x, y; simpl; intros H; try discriminate H; auto. Qed.

Lemma fmul_finite_inv x y :
  is_finite (x * y)%py = true -> is_finite x = true /\ is_finite y = true.
Proof.
  destruct x as [a | | |], y as [b | | |]; simpl; intros H;
    try discriminate H; auto;
    match type of H with
    | context [inf_of_sign ?c] => destruct c; discriminate H
    end.
Qed.

Lemma fdiv_finite_inv x y :
  is_finite (x / y)%py = true -> is_finite x = true.
Proof.
  destruct x as [a | | |], y as [b | | |]; simpl; intros H;
    try discriminate H; auto;
    destruct (Qle_bool 0 b); discriminate H.
Qed.

Lemma np_sqrt_finite_inv x : is_finite (np_sqrt x) = true -> is_finite x = true.
Proof. destruct x; simpl; intros H; try discriminate H; reflexivity. Qed.

Lemma fsum_from_finite_inv (l : list pyfloat) (acc : pyfloat) :
  is_finite (fold_left fadd l acc) = true ->
  is_finite acc = true /\ forall x, In x l -> is_finite x = true.
Proof.
  revert acc. induction l as [| a l IH]; intros acc H; simpl in H.
  - split; [exact H | intros x []].
  - apply IH in H. destruct H as [Hacc Hl].
    apply fadd_finite_inv in Hacc. destruct Hacc as [Hacc Ha].
    split; [exact Hacc |].
    intros x [<- | Hx]; [exact Ha | apply Hl; exact Hx].
Qed.

End Finite.

(** A finite variance needs a finite mean: every squared deviation from
    the mean has to be finite. *)
Lemma series_var_finite_mean (l : list pyfloat) :
  is_finite (series_var l) = true -> is_finite (series_mean l) = true.
Proof.
  unfold series_var, series_mean.
  destruct (dropna l) as [| x t]; [intros H; discriminate H |].
  destruct (length (x :: t) <=? 1)%nat; [intros H; discriminate H |].
  set (avg := (fsum (x :: t) / of_nat (length (x :: t)))%py).
  intros H. apply fdiv_finite_inv in H.
  apply fsum_from_finite_inv in H. destruct H as [_ H].
  specialize (H ((avg - x) * (avg - x))%py (or_introl eq_refl)).
  apply fmul_finite_inv in H. destruct H as [H _].
  apply fsub_finite_inv in H. destruct H as [H _]. exact H.
Qed.

Lemma zero_std_zero_volatility (returns : list pyfloat) :
  series_std returns = Fin 0 -> volatility returns = Fin 0.
Proof.
  intros H. unfold volatility. rewrite H. vm_compute. reflexivity.
Qed.

Lemma fdiv_zero_cases (a : Q) :
  ((0 < a)%Q -> (Fin a / Fin 0)%py = PInf) /\
  ((a < 0)%Q -> (Fin a / Fin 0)%py = NInf) /\
  ((a == 0)%Q -> (Fin a / Fin 0)%py = NaN).
Proof.
  rewrite fdiv_by_zero by reflexivity.
  split; [| split]; intros H.
  - assert (E : (a ?= 0)%Q = Gt) by (apply Qgt_alt; exact H).
    rewrite E. reflexivity.
  - assert (E : (a ?= 0)%Q = Lt) by (apply Qlt_alt; exact H).
    rewrite E. reflexivity.
  - assert (E : (a ?= 0)%Q = Eq) by (apply Qeq_alt; exact H).
    rewrite E. reflexivity.
Qed.

(** C1, as the code has it: nothing guards the division by the
    volatility. When the standard deviation of the returns is zero, so is
    the volatility, the mean return is a finite number, and the Sharpe
    ratio is the quotient of the annualized mean by zero: [+inf] for a
    positive mean, [-inf] for a negative one, [nan] for a mean of zero;
    it is never a finite number. *)
Theorem sharpe_zero_std_unguarded (nav : list Q) :
  let returns := pct_change nav in
  series_std returns = Fin 0 ->
  exists m : Q,
    series_mean returns = Fin m /\
    volatility returns = Fin 0 /\
    sharpe returns = (Fin m * Fin 252 / Fin 0)%py /\
    ((0 < m)%Q -> sharpe returns = PInf) /\
    ((m < 0)%Q -> sharpe returns = NInf) /\
    ((m == 0)%Q -> sharpe returns = NaN) /\
    is_finite (sharpe returns) = false.
Proof.
  intros returns Hstd.
  assert (Hmean : is_finite (series_mean returns) = true).
  { apply series_var_finite_mean, np_sqrt_finite_inv.
    fold (series_std returns). rewrite Hstd. reflexivity. }
  destruct (series_mean returns) as [m | | |] eqn:Em; try discriminate Hmean.
  assert (Hvol := zero_std_zero_volatility _ Hstd).
  assert (Hs : sharpe returns = (Fin m * Fin 252 / Fin 0)%py).
  { unfold sharpe. rewrite Em, Hvol. reflexivity. }
  exists m. rewrite Hs.
  change (Fin m * Fin 252)%py with (Fin (Qred (m * 252))).
  destruct (fdiv_zero_cases (Qred (m * 252))) as (Hpos & Hneg & Hzero).
  repeat split; try assumption.
  - intros H. apply Hpos. rewrite Qred_correct. lra.
  - intros H. apply Hneg. rewrite Qred_correct. lra.
  - intros H. apply Hzero. rewrite Qred_correct, H. reflexivity.
  - rewrite fdiv_by_zero by reflexivity.
    destruct (Qred (m * 252) ?= 0)%Q; reflexivity.
Qed.

Lemma sharpe_zero_std_unguarded_witness :
  exists m : Q,
    series_mean (pct_change [1; 2; 4]%Q) = Fin m /\
    (0 < m)%Q /\
    sharpe (pct_change [1; 2; 4]%Q) = PInf.
Proof.
  destruct (sharpe_zero_std_unguarded [1; 2; 4]%Q)
    as (m & Hm & _ & _ & Hpos & _).
  - vm_compute. reflexivity.
  - assert (E : m = 1%Q).
    { assert (H : Fin m = Fin 1) by (rewrite <- Hm; vm_compute; reflexivity).
      injection H as ->. reflexivity. }
    exists m. split; [exact Hm |].
    assert (Hlt : (0 < m)%Q) by (rewrite E; reflexivity).
    split; [exact Hlt | exact (Hpos Hlt)].
Defined.

(** C1, refuted as stated: a NAV that doubles at every step has the
    constant return 1, a standard deviation of zero, and a Sharpe ratio
    of [+inf], which the classifier calls Good; a constant NAV has a
    Sharpe ratio of [nan]. *)
Lemma sharpe_constant_returns_is_infinite :
  pct_change [1; 2; 4]%Q = [NaN; Fin 1; Fin 1] /\
  series_std (pct_change [1; 2; 4]%Q) = Fin 0 /\
  sharpe (pct_change [1; 2; 4]%Q) = PInf /\
  mf_verdict "Sharpe Ratio" (sharpe (pct_change [1; 2; 4]%Q)) = Some GOOD /\
  series_std (pct_change [10; 10; 10]%Q) = Fin 0 /\
  sharpe (pct_change [10; 10; 10]%Q) = NaN.
Proof. vm_compute. repeat split. Qed.

(** ** Funds: the expected return when a metric is undefined *)

(** The Sharpe ratio of returns whose standard deviation is zero, by the
    sign of their mean. *)
Lemma sharpe_zero_std_cases (returns : list pyfloat) :
  series_std returns = Fin 0 ->
  exists m : Q,
    series_mean returns = Fin m /\
    ((0 < m)%Q -> sharpe returns = PInf) /\
    ((m < 0)%Q -> sharpe returns = NInf) /\
    ((m == 0)%Q -> sharpe returns = NaN).
Proof.
  intros Hstd.
  assert (Hmean : is_finite (series_mean returns) = true).
  { apply series_var_finite_mean, np_sqrt_finite_inv.
    fold (series_std returns). rewrite Hstd. reflexivity. }
  destruct (series_mean returns) as [m | | |] eqn:Em; try discriminate Hmean.
  assert (Hs : sharpe returns = (Fin (Qred (m * 252)) / Fin 0)%py).
  { unfold sharpe. rewrite Em, (zero_std_zero_volatility _ Hstd). reflexivity. }
  exists m. rewrite Hs.
  destruct (fdiv_zero_cases (Qred (m * 252))) as (Hpos & Hneg & Hzero).
  split; [reflexivity |]. split; [| split]; intros H.
  - apply Hpos. rewrite Qred_correct. lra.
  - apply Hneg. rewrite Qred_correct. lra.
  - apply Hzero. rewrite Qred_correct, H. reflexivity.
Qed.

(** A window of a single point with a value other than zero: the ratio is
    1, and with [1 ** (1/3) = 1] the 3-year CAGR is 0. *)
Lemma cagr_3y_single_point (power : pyfloat -> pyfloat -> pyfloat)
    (nav_df : list nav_row) (f : Q) :
  length (window 3 nav_df) = 1%nat ->
  iloc_first (window 3 nav_df) = Some f -> ~ (f == 0)%Q ->
  power (Fin 1) (Fin 1 / Fin 3)%py = Fin 1 ->
  cagr_3y power nav_df = Some (Fin 0).
Proof.
  intros Hlen Hf Hnz Hpow.
  destruct (iloc_ends (window 3 nav_df)) as (f' & l & Hf' & Hl & Hone).
  { intros E. rewrite E in Hlen. discriminate Hlen. }
  rewrite Hf in Hf'. injection Hf' as <-.
  specialize (Hone Hlen). subst l.
  unfold cagr_3y. rewrite Hl, Hf.
  cbn [mbind option_bind].
  assert (E : (Fin f / Fin f)%py = Fin 1).
  { rewrite fdiv_finite by exact Hnz.
    change (Fin 1) with (Fin (Qred 1)). f_equal.
    apply Qred_complete. field. exact Hnz. }
  rewrite E, Hpow. reflexivity.
Qed.

(** The product is [nan] only for a [nan] input: the clamped Sharpe ratio
    is a positive number, which no infinity multiplies into [nan]. *)
Lemma expected_return_mf_not_nan (cagr sh : pyfloat) :
  is_nan cagr = false -> is_nan sh = false ->
  is_nan (expected_return_mf cagr sh) = false.
Proof.
  intros Hc Hn. destruct (sharpe_adj_bounds sh Hn) as [H1 H2].
  unfold expected_return_mf.
  destruct (sharpe_adj sh) as [a | | |];
    try discriminate H1; try discriminate H2.
  simpl in H1. apply Qle_bool_iff in H1.
  assert (Ha : (0 < a)%Q) by lra.
  assert (E1 : (a ?= 0)%Q = Gt) by (apply Qgt_alt; exact Ha).
  assert (E2 : (0 ?= a)%Q = Lt) by (apply Qlt_alt; exact Ha).
  destruct cagr; try discriminate Hc; simpl; rewrite ?E1, ?E2; reflexivity.
Qed.



(** * Further properties of the code *)

(** ** The classifier across its bands *)

Lemma flt_fle_trans (x y z : pyfloat) :
  (x <? y)%py = true -> (y <=? z)%py = true -> (x <? z)%py = true.
Proof.
  destruct x, y, z; simpl; intros H1 H2;
    try reflexivity; try discriminate H1; try discriminate H2.
  apply Qltb_lt. apply Qltb_lt in H1. apply Qle_bool_iff in H2.
  eapply Qlt_le_trans; eassumption.
Qed.

Lemma fle_flt_trans (x y z : pyfloat) :
  (x <=? y)%py = true -> (y <? z)%py = true -> (x <? z)%py = true.
Proof.
  destruct x, y, z; simpl; intros H1 H2;
    try reflexivity; try discriminate H1; try discriminate H2.
  apply Qltb_lt. apply Qltb_lt in H2. apply Qle_bool_iff in H1.
  eapply Qle_lt_trans; eassumption.
Qed.

(** Closes a goal whose hypotheses say that a threshold test holds of
    one value and fails of a value on the far side of it. *)
Ltac band_contradiction :=
  match goal with
  | A : (?c <? ?v)%py = true, H : (?v <=? ?w)%py = true,
    B : (?c <? ?w)%py = false |- _ =>
      rewrite (flt_fle_trans _ _ _ A H) in B; discriminate B
  | A : (?c <=? ?v)%py = true, H : (?v <=? ?w)%py = true,
    B : (?c <=? ?w)%py = false |- _ =>
      rewrite (fle_trans _ _ _ A H) in B; discriminate B
  | A : (?w <? ?c)%py = true, H : (?v <=? ?w)%py = true,
    B : (?v <? ?c)%py = false |- _ =>
      rewrite (fle_flt_trans _ _ _ H A) in B; discriminate B
  | A : (?w <=? ?c)%py = true, H : (?v <=? ?w)%py = true,
    B : (?v <=? ?c)%py = false |- _ =>
      rewrite (fle_trans _ _ _ H A) in B; discriminate B
  end.

Ltac band_cases :=
  unfold mf_verdict, fgt, fge; cbn -[flt fle];
  repeat match goal with
         | |- context [if ?b then _ else _] => destruct b eqn:?
         end;
  first [ band_contradiction | vm_compute; congruence ].

(** X1. The verdict follows the value: for the two CAGRs, the Sharpe ratio
    and the maximum drawdown a greater value never gets a lower verdict,
    and for the volatility a greater value never gets a higher one. *)
Theorem mf_verdict_monotone (metric : string) (v w : pyfloat) :
  In metric MF_METRICS ->
  (v <=? w)%py = true ->
  if String.eqb metric "Volatility"
  then verdict_rank (mf_verdict metric w) <= verdict_rank (mf_verdict metric v)
  else verdict_rank (mf_verdict metric v) <= verdict_rank (mf_verdict metric w).
Proof.
  intros Hm Hle. metric_cases Hm; simpl String.eqb; cbv iota; band_cases.
Qed.

Lemma mf_verdict_monotone_witness :
  verdict_rank (mf_verdict "Sharpe Ratio" (Fin 0.7))
  <= verdict_rank (mf_verdict "Sharpe Ratio" (Fin 1.5)).
Proof.
  apply (mf_verdict_monotone "Sharpe Ratio" (Fin 0.7) (Fin 1.5)).
  - simpl. tauto.
  - reflexivity.
Defined.

(** X2. The evaluation table asks the classifier about recognized
    metrics only: its rows are the five metrics in order, and each
    verdict is Good, Average or Poor, never [None], whatever the
    values. *)
Theorem mf_metrics_banded (c1 c3 vol sh dd : pyfloat) :
  map fst (mf_metrics c1 c3 vol sh dd) = MF_METRICS /\
  forall m v, In (m, v) (mf_metrics c1 c3 vol sh dd) ->
    exists s, In s BAND_VERDICTS /\ v = Some s.
Proof.
  split; [reflexivity |].
  intros m v H. unfold mf_metrics in H. simpl in H.
  repeat (destruct H as [H | H];
          [injection H as <- <-; apply mf_verdict_recognized; simpl; tauto |]).
  destruct H.
Qed.

(** ** The comparison and the narrative together *)

Section Groups.

Variables stock sector : MetricSet.

#[local] Abbreviation is_positive := (positive_item stock sector).
#[local] Abbreviation is_negative := (negative_item stock sector).

Lemma why_step_labels (pos neg : list string) (item : string * metric_meta) :
  why_step stock sector (pos, neg) item
  = (pos ++ (if is_positive item then [label item.2] else []),
     neg ++ (if is_negative item then [label item.2] else [])).
Proof.
  destruct item as [k meta]. unfold why_step, positive_item, negative_item. simpl.
  destruct (stock !! k) as [s |]; [| rewrite !app_nil_r; reflexivity].
  destruct (sector !! k) as [sec |]; [| rewrite !app_nil_r; reflexivity].
  destruct (better meta s sec); simpl; rewrite app_nil_r; reflexivity.
Qed.

Lemma why_step_fold_filter (items : list (string * metric_meta))
    (pos neg : list string) :
  fold_left (why_step stock sector) items (pos, neg)
  = (pos ++ map (fun i => label i.2) (List.filter is_positive items),
     neg ++ map (fun i => label i.2) (List.filter is_negative items)).
Proof.
  revert pos neg. induction items as [| item items IH]; intros pos neg.
  - simpl. rewrite !app_nil_r. reflexivity.
  - cbn [fold_left List.filter]. rewrite why_step_labels, IH.
    destruct (is_positive item), (is_negative item); simpl;
      rewrite <- ?app_assoc, ?app_nil_r; reflexivity.
Qed.

Lemma why_groups_filter :
  why_groups stock sector
  = (map (fun i => label i.2) (List.filter is_positive METRIC_INFO),
     map (fun i => label i.2) (List.filter is_negative METRIC_INFO)).
Proof. unfold why_groups. apply why_step_fold_filter. Qed.

Lemma row_verdict_cases (item : string * metric_meta) :
  let v := Verdict (comparison_row_of stock sector item) in
  (is_positive item = true /\ v = BETTER) \/
  (is_negative item = true /\ v = WORSE) \/
  (is_positive item = false /\ is_negative item = false /\ v = UNKNOWN).
Proof.
  destruct item as [k meta]. unfold positive_item, negative_item. simpl.
  destruct (stock !! k) as [s |]; [| tauto].
  destruct (sector !! k) as [sec |]; [| tauto].
  destruct (better meta s sec); simpl; tauto.
Qed.

Lemma positive_not_negative (item : string * metric_meta) :
  is_positive item = true -> is_negative item = false.
Proof.
  unfold positive_item, negative_item.
  destruct (stock !! item.1); [| discriminate].
  destruct (sector !! item.1); [| discriminate].
  intros ->. reflexivity.
Qed.

End Groups.

Lemma filter_nil_iff {A : Type} (p : A -> bool) (l : list A) :
  List.filter p l = [] <-> forall x, In x l -> p x = false.
Proof.
  induction l as [| a l IH]; simpl.
  - split; [intros _ x [] | reflexivity].
  - destruct (p a) eqn:E; split.
    + discriminate.
    + intros H. specialize (H a (or_introl eq_refl)). congruence.
    + intros H x [<- | Hx]; [exact E | apply IH; assumption].
    + intros H. apply IH. intros x Hx. apply H. right. exact Hx.
Qed.

Lemma filter_sublist {A : Type} (p : A -> bool) (l : list A) :
  sublist (List.filter p l) l.
Proof.
  induction l as [| a l IH]; simpl; [constructor |].
  destruct (p a); [apply sublist_skip | apply sublist_cons]; exact IH.
Qed.

Lemma map_sublist {A B : Type} (f : A -> B) (l k : list A) :
  sublist l k -> sublist (map f l) (map f k).
Proof.
  induction 1; simpl; [constructor | apply sublist_skip | apply sublist_cons];
    assumption.
Qed.

(** Two filters that exclude each other, on a list whose images under
    [f] are distinct: the images of the two selections share nothing. *)
Lemma filter_disjoint_NoDup {A B : Type} (f : A -> B) (p q : A -> bool)
    (l : list A) :
  (forall x, p x = true -> q x = false) ->
  NoDup (map f l) ->
  NoDup (map f (List.filter p l) ++ map f (List.filter q l)).
Proof.
  intros Hpq. induction l as [| a l IH]; simpl; intros Hnd.
  - constructor.
  - apply NoDup_cons in Hnd. destruct Hnd as [Ha Hnd].
    specialize (IH Hnd).
    assert (Hsub : forall r : A -> bool, forall y,
               y ∈ map f (List.filter r l) -> y ∈ map f l).
    { intros r y Hy. apply list_elem_of_In in Hy. apply list_elem_of_In.
      apply in_map_iff in Hy. destruct Hy as (x & <- & Hx).
      apply filter_In in Hx. apply in_map. tauto. }
    destruct (p a) eqn:Ep.
    + rewrite (Hpq _ Ep). simpl. apply NoDup_cons. split; [| exact IH].
      intros Hin. apply elem_of_app in Hin.
      destruct Hin as [Hin | Hin]; apply Hsub in Hin; contradiction.
    + destruct (q a) eqn:Eq; [| exact IH]. simpl.
      apply NoDup_app in IH. destruct IH as (N1 & N12 & N2).
      apply NoDup_app. split; [exact N1 |]. split.
      * intros y Hy Hin. apply elem_of_cons in Hin.
        destruct Hin as [-> | Hin]; [| exact (N12 _ Hy Hin)].
        apply Hsub in Hy. contradiction.
      * apply NoDup_cons. split; [| exact N2].
        intros Hin. apply Hsub in Hin. contradiction.
Qed.

Lemma METRIC_LABELS_NoDup : NoDup METRIC_LABELS.
Proof. apply (bool_decide_unpack _). vm_compute. reflexivity. Qed.

(** X3. The narrative and the table agree: a label is among the
    positives exactly when its row of [build_comparison] says Better, and
    among the negatives exactly when its row says Worse. *)
Theorem narrative_matches_comparison (stock sector : MetricSet) (l : string) :
  (In l (why_groups stock sector).1 <->
   exists row, In row (build_comparison stock sector) /\
               Metric row = l /\ Verdict row = BETTER) /\
  (In l (why_groups stock sector).2 <->
   exists row, In row (build_comparison stock sector) /\
               Metric row = l /\ Verdict row = WORSE).
Proof.
  rewrite why_groups_filter. unfold build_comparison. cbn [fst snd].
  split; rewrite in_map_iff; split.
  - intros (item & <- & Hin). apply filter_In in Hin. destruct Hin as [Hin Hp].
    exists (comparison_row_of stock sector item).
    split; [apply in_map; exact Hin |].
    split; [destruct item; reflexivity |].
    destruct (row_verdict_cases stock sector item)
      as [[_ V] | [[Hn _] | (Hf & _)]]; [exact V | |congruence].
    rewrite (positive_not_negative _ _ _ Hp) in Hn. discriminate Hn.
  - intros (row & Hrow & <- & V). apply in_map_iff in Hrow.
    destruct Hrow as (item & <- & Hin). exists item.
    split; [destruct item; reflexivity |].
    apply filter_In. split; [exact Hin |].
    destruct (row_verdict_cases stock sector item)
      as [[Hp _] | [[_ V'] | (_ & _ & V')]];
      [exact Hp | rewrite V' in V; discriminate V | rewrite V' in V; discriminate V].
  - intros (item & <- & Hin). apply filter_In in Hin. destruct Hin as [Hin Hn].
    exists (comparison_row_of stock sector item).
    split; [apply in_map; exact Hin |].
    split; [destruct item; reflexivity |].
    destruct (row_verdict_cases stock sector item)
      as [[Hp _] | [[_ V] | (_ & Hf & _)]]; [| exact V | congruence].
    rewrite (positive_not_negative _ _ _ Hp) in Hn. discriminate Hn.
  - intros (row & Hrow & <- & V). apply in_map_iff in Hrow.
    destruct Hrow as (item & <- & Hin). exists item.
    split; [destruct item; reflexivity |].
    apply filter_In. split; [exact Hin |].
    destruct (row_verdict_cases stock sector item)
      as [[_ V'] | [[Hn _] | (_ & _ & V')]];
      [rewrite V' in V; discriminate V | exact Hn | rewrite V' in V; discriminate V].
Qed.

(** The rows of the comparison with a given verdict are the metrics the
    narrative lists in the matching group. *)
Lemma positive_nil_iff (stock sector : MetricSet) :
  List.filter (positive_item stock sector) METRIC_INFO = [] <->
  forall row, In row (build_comparison stock sector) -> Verdict row <> BETTER.
Proof.
  rewrite filter_nil_iff. unfold build_comparison. split.
  - intros Hp row Hrow V. apply in_map_iff in Hrow.
    destruct Hrow as (item & <- & Hin).
    destruct (row_verdict_cases stock sector item)
      as [[Hp' _] | [[_ V'] | (_ & _ & V')]].
    + rewrite (Hp _ Hin) in Hp'. discriminate Hp'.
    + rewrite V' in V. discriminate V.
    + rewrite V' in V. discriminate V.
  - intros H item Hin.
    specialize (H _ (in_map (comparison_row_of stock sector) _ _ Hin)).
    destruct (row_verdict_cases stock sector item)
      as [[_ V] | [[Hn _] | (Hp & _ & _)]].
    + contradiction.
    + destruct (positive_item stock sector item) eqn:Ep; [| reflexivity].
      rewrite (positive_not_negative stock sector item Ep) in Hn.
      discriminate Hn.
    + exact Hp.
Qed.

Lemma negative_nil_iff (stock sector : MetricSet) :
  List.filter (negative_item stock sector) METRIC_INFO = [] <->
  forall row, In row (build_comparison stock sector) -> Verdict row <> WORSE.
Proof.
  rewrite filter_nil_iff. unfold build_comparison. split.
  - intros Hn row Hrow V. apply in_map_iff in Hrow.
    destruct Hrow as (item & <- & Hin).
    destruct (row_verdict_cases stock sector item)
      as [[_ V'] | [[Hn' _] | (_ & _ & V')]].
    + rewrite V' in V. discriminate V.
    + rewrite (Hn _ Hin) in Hn'. discriminate Hn'.
    + rewrite V' in V. discriminate V.
  - intros H item Hin.
    specialize (H _ (in_map (comparison_row_of stock sector) _ _ Hin)).
    destruct (row_verdict_cases stock sector item)
      as [[Hp _] | [[_ V] | (_ & Hn & _)]].
    + destruct (negative_item stock sector item) eqn:En; [| reflexivity].
      rewrite (positive_not_negative stock sector item Hp) in En.
      discriminate En.
    + contradiction.
    + exact Hn.
Qed.

(** X4. [why_this_stock] answers with its neutral sentence exactly when
    every row of the comparison is undecided, that is when no metric has
    both a stock value and a sector value. Otherwise the text starts with
    "Strengths: " or with "Weaknesses: ": with "Strengths: " when some row
    is better, and with "Weaknesses: " when no row is better and some row
    is worse. *)
Theorem why_this_stock_neutral_iff (stock sector : MetricSet) :
  (why_this_stock stock sector
     = "The stock performs broadly in line with sector peers."%string <->
   forall row, In row (build_comparison stock sector) ->
               Verdict row = UNKNOWN) /\
  (why_this_stock stock sector
     <> "The stock performs broadly in line with sector peers."%string ->
   exists rest : string,
     why_this_stock stock sector = ("Strengths: " +:+ rest)%string \/
     why_this_stock stock sector = ("Weaknesses: " +:+ rest)%string) /\
  ((exists row, In row (build_comparison stock sector) /\
                Verdict row = BETTER) <->
   exists rest : string,
     why_this_stock stock sector = ("Strengths: " +:+ rest)%string) /\
  ((forall row, In row (build_comparison stock sector) ->
                Verdict row <> BETTER) /\
   (exists row, In row (build_comparison stock sector) /\
                Verdict row = WORSE) <->
   exists rest : string,
     why_this_stock stock sector = ("Weaknesses: " +:+ rest)%string).
Proof.
  assert (Hall : (List.filter (positive_item stock sector) METRIC_INFO = [] /\
                  List.filter (negative_item stock sector) METRIC_INFO = []) <->
                 forall row, In row (build_comparison stock sector) ->
                             Verdict row = UNKNOWN).
  { rewrite positive_nil_iff, negative_nil_iff. split.
    - intros [Hp Hn] row Hrow. specialize (Hp row Hrow).
      specialize (Hn row Hrow). unfold build_comparison in Hrow.
      apply in_map_iff in Hrow. destruct Hrow as (item & <- & Hin).
      destruct (row_verdict_cases stock sector item)
        as [[_ V] | [[_ V] | (_ & _ & V)]];
        [contradiction | contradiction | exact V].
    - intros H. split; intros row Hrow V; rewrite (H row Hrow) in V;
        discriminate V. }
  assert (Hbetter : (exists row, In row (build_comparison stock sector) /\
                                 Verdict row = BETTER) <->
                    List.filter (positive_item stock sector) METRIC_INFO <> []).
  { split.
    - rewrite positive_nil_iff. intros (row & Hrow & V) H. exact (H row Hrow V).
    - intros H.
      destruct (List.filter (positive_item stock sector) METRIC_INFO)
        as [| item rest] eqn:E; [contradiction H; reflexivity |].
      assert (Hin : In item (List.filter (positive_item stock sector) METRIC_INFO))
        by (rewrite E; left; reflexivity).
      apply filter_In in Hin. destruct Hin as [Hin Hitem].
      exists (comparison_row_of stock sector item).
      split; [apply in_map; exact Hin |].
      destruct (row_verdict_cases stock sector item)
        as [[_ V] | [[Hn _] | (Hp & _ & _)]].
      * exact V.
      * rewrite (positive_not_negative stock sector item Hitem) in Hn.
        discriminate Hn.
      * rewrite Hp in Hitem. discriminate Hitem. }
  assert (Hworse : (exists row, In row (build_comparison stock sector) /\
                                Verdict row = WORSE) <->
                   List.filter (negative_item stock sector) METRIC_INFO <> []).
  { split.
    - rewrite negative_nil_iff. intros (row & Hrow & V) H. exact (H row Hrow V).
    - intros H.
      destruct (List.filter (negative_item stock sector) METRIC_INFO)
        as [| item rest] eqn:E; [contradiction H; reflexivity |].
      assert (Hin : In item (List.filter (negative_item stock sector) METRIC_INFO))
        by (rewrite E; left; reflexivity).
      apply filter_In in Hin. destruct Hin as [Hin Hitem].
      exists (comparison_row_of stock sector item).
      split; [apply in_map; exact Hin |].
      destruct (row_verdict_cases stock sector item)
        as [[Hp _] | [[_ V] | (_ & Hn & _)]].
      * rewrite (positive_not_negative stock sector item Hp) in Hitem.
        discriminate Hitem.
      * exact V.
      * rewrite Hn in Hitem. discriminate Hitem. }
  rewrite <- Hall, Hbetter, Hworse, <- positive_nil_iff. clear Hall Hbetter Hworse.
  unfold why_this_stock. rewrite why_groups_filter.
  set (P := List.filter (positive_item stock sector) METRIC_INFO).
  set (N := List.filter (negative_item stock sector) METRIC_INFO).
  destruct P as [| p P], N as [| n N]; cbn -[String.concat].
  - split; [tauto |]. split; [intros H; contradiction H; reflexivity |].
    split; [split; [intros H; contradiction H; reflexivity
                   | intros [rest H]; discriminate H] |].
    split; [intros [_ H]; contradiction H; reflexivity
           | intros [rest H]; discriminate H].
  - split; [split; [discriminate | intros [_ H]; discriminate H] |].
    split; [intros _; eexists; right; reflexivity |].
    split; [split; [intros H; contradiction H; reflexivity
                   | intros [rest H]; discriminate H] |].
    split; [intros _; eexists; reflexivity
           | intros _; split; [reflexivity | discriminate]].
  - split; [split; [discriminate | intros [H _]; discriminate H] |].
    split; [intros _; eexists; left; reflexivity |].
    split; [split; [intros _; eexists; reflexivity | intros _; discriminate] |].
    split; [intros [H _]; discriminate H | intros [rest H]; discriminate H].
  - split; [split; [discriminate | intros [H _]; discriminate H] |].
    split; [intros _; eexists; left; reflexivity |].
    split; [split; [intros _; eexists; reflexivity | intros _; discriminate] |].
    split; [intros [H _]; discriminate H | intros [rest H]; discriminate H].
Qed.

(** X5. Each metric is listed at most once across the two groups of the
    narrative, and each group keeps the order of the table. *)
Theorem narrative_groups_ordered (stock sector : MetricSet) :
  NoDup ((why_groups stock sector).1 ++ (why_groups stock sector).2) /\
  sublist (why_groups stock sector).1 METRIC_LABELS /\
  sublist (why_groups stock sector).2 METRIC_LABELS.
Proof.
  rewrite why_groups_filter. cbn [fst snd]. split; [| split].
  - apply filter_disjoint_NoDup.
    + apply positive_not_negative.
    + exact METRIC_LABELS_NoDup.
  - apply map_sublist, filter_sublist.
  - apply map_sublist, filter_sublist.
Qed.

Lemma flt_asym (x y : pyfloat) : (x <? y)%py = true -> (y <? x)%py = false.
Proof.
  destruct x, y; simpl; intros H; try reflexivity; try discriminate H.
  apply Qltb_ge, Qlt_le_weak, Qltb_lt. exact H.
Qed.

(** X6. Comparing the other way round: when the stock is Better than the
    sector on a metric, the sector is Worse than the stock on it, and a
    row is undecided one way exactly when it is the other way. *)
Theorem comparison_swap (stock sector : MetricSet) (item : string * metric_meta) :
  (Verdict (comparison_row_of stock sector item) = BETTER ->
   Verdict (comparison_row_of sector stock item) = WORSE) /\
  (Verdict (comparison_row_of stock sector item) = UNKNOWN <->
   Verdict (comparison_row_of sector stock item) = UNKNOWN).
Proof.
  destruct item as [k meta]. unfold comparison_row_of. simpl.
  destruct (stock !! k) as [s |], (sector !! k) as [sec |];
    try (split; [discriminate | tauto]).
  assert (H : better meta s sec = true -> better meta sec s = false).
  { unfold better, fgt. destruct (inverse meta); apply flt_asym. }
  split.
  - destruct (better meta s sec); [| discriminate].
    intros _. rewrite H by reflexivity. reflexivity.
  - destruct (better meta s sec), (better meta sec s); split; discriminate.
Qed.

(** ** Equity: the expected return over its inputs *)

(** X7. Whatever the ROE and the debt/equity are, [nan] and infinities
    included, the equity expected return stays within 0.02 below and 0.03
    above the revenue growth (0 when absent). *)
Theorem expected_return_stock_bounds (stock : MetricSet) (rev : option Q) :
  stock !! "rev_growth" = Fin <$> rev ->
  exists q,
    expected_return_stock stock = Fin q /\
    (default 0 rev - 0.02 <= q <= default 0 rev + 0.03)%Q.
Proof.
  intros Hrev. unfold expected_return_stock.
  destruct (or_zero_finite_or_absent _ _ Hrev) as (r & -> & Er).
  unfold roe_bonus, de_penalty.
  destruct (_ >? Fin 0.15)%py, (_ >? Fin 1)%py; simpl;
    eexists; (split; [reflexivity |]);
    rewrite !Qred_correct; split; lra.
Qed.

Lemma expected_return_stock_bounds_witness :
  exists q,
    expected_return_stock {["rev_growth" := Fin 0.08; "roe" := NaN]} = Fin q /\
    (0.08 - 0.02 <= q <= 0.08 + 0.03)%Q.
Proof.
  apply (expected_return_stock_bounds
           {["rev_growth" := Fin 0.08; "roe" := NaN]} (Some 0.08%Q)).
  reflexivity.
Defined.

(** X8. A [nan] among the inputs: a [nan] revenue growth is truthy, so
    [or 0] keeps it and the result is [nan]; a [nan] ROE or debt/equity
    fails its threshold test and counts exactly as an absent one. *)
Theorem expected_return_stock_nan (stock : MetricSet) :
  (stock !! "rev_growth" = Some NaN -> expected_return_stock stock = NaN) /\
  (stock !! "roe" = Some NaN ->
   expected_return_stock stock = expected_return_stock (delete "roe" stock)) /\
  (stock !! "de" = Some NaN ->
   expected_return_stock stock = expected_return_stock (delete "de" stock)).
Proof.
  unfold expected_return_stock. split; [| split]; intros H.
  - rewrite H. unfold roe_bonus, de_penalty.
    destruct (_ >? Fin 0.15)%py, (_ >? Fin 1)%py; reflexivity.
  - rewrite H, lookup_delete_eq, !lookup_delete_ne by discriminate.
    reflexivity.
  - rewrite H, lookup_delete_eq, !lookup_delete_ne by discriminate.
    reflexivity.
Qed.

(** ** Equity: extraction and sector averages *)

Section ListToMap.

Context {A V : Type} (key : A -> string) (g : A -> option V).

#[local] Abbreviation entry := (fun y : A => pair (key y) <$> g y).

Lemma lookup_omap_not_key (l : list A) (k : string) :
  ~ In k (map key l) ->
  (list_to_map (omap entry l) : gmap string V) !! k = None.
Proof.
  induction l as [| y l IH]; intros Hk; [apply lookup_empty |].
  simpl in Hk. cbn [omap list_omap]. destruct (g y) as [v |]; simpl.
  - rewrite lookup_insert_ne by tauto. apply IH. tauto.
  - apply IH. tauto.
Qed.

Lemma lookup_omap_key (l : list A) (x : A) :
  NoDup (map key l) -> In x l ->
  (list_to_map (omap entry l) : gmap string V) !! key x = g x.
Proof.
  induction l as [| y l IH]; intros Hnd Hx; [destruct Hx |].
  simpl in Hnd. apply NoDup_cons in Hnd. destruct Hnd as [Hy Hnd].
  rewrite list_elem_of_In in Hy.
  cbn [omap list_omap]. destruct Hx as [<- | Hx].
  - destruct (g y) as [v |]; simpl.
    + apply lookup_insert_eq.
    + apply lookup_omap_not_key. exact Hy.
  - assert (Hne : key y <> key x).
    { intros E. apply Hy. rewrite E. apply in_map. exact Hx. }
    destruct (g y) as [v |]; simpl.
    + rewrite lookup_insert_ne by exact Hne. apply IH; assumption.
    + apply IH; assumption.
Qed.

End ListToMap.

Lemma METRIC_FIELDS_NoDup : NoDup (map fst METRIC_FIELDS).
Proof. apply (bool_decide_unpack _). vm_compute. reflexivity. Qed.

Lemma extract_metrics_field (info : gmap string pyfloat) (k f : string) :
  In (k, f) METRIC_FIELDS -> extract_metrics info !! k = info !! f.
Proof.
  intros H. unfold extract_metrics.
  apply (lookup_omap_key fst (fun y : string * string => info !! y.2)
           METRIC_FIELDS (k, f)); [exact METRIC_FIELDS_NoDup | exact H].
Qed.

(** X9. [extract_metrics] renames and keeps nothing else: each of the
    five keys is bound exactly when its field is present in the company
    record, to the same value, and no other key is bound, whatever else
    the record holds. *)
Theorem extract_metrics_lookup (info : gmap string pyfloat) (k : string) :
  (forall f, In (k, f) METRIC_FIELDS -> extract_metrics info !! k = info !! f) /\
  (~ In k (map fst METRIC_FIELDS) -> extract_metrics info !! k = None).
Proof.
  split.
  - intros f H. apply extract_metrics_field. exact H.
  - intros H. unfold extract_metrics.
    apply (lookup_omap_not_key fst (fun y : string * string => info !! y.2)).
    exact H.
Qed.

(** X10. The equity expected return of a company depends on three fields
    of its record only: revenue growth, return on equity and debt to
    equity. *)
Theorem expected_return_stock_three_fields (info info' : gmap string pyfloat) :
  info !! "revenueGrowth" = info' !! "revenueGrowth" ->
  info !! "returnOnEquity" = info' !! "returnOnEquity" ->
  info !! "debtToEquity" = info' !! "debtToEquity" ->
  expected_return_stock (extract_metrics info)
  = expected_return_stock (extract_metrics info').
Proof.
  intros H1 H2 H3. unfold expected_return_stock.
  rewrite !(extract_metrics_field _ "rev_growth" "revenueGrowth") by (simpl; tauto).
  rewrite !(extract_metrics_field _ "roe" "returnOnEquity") by (simpl; tauto).
  rewrite !(extract_metrics_field _ "de" "debtToEquity") by (simpl; tauto).
  rewrite H1, H2, H3. reflexivity.
Qed.

Lemma expected_return_stock_three_fields_witness :
  expected_return_stock
    (extract_metrics {["revenueGrowth" := Fin 0.08; "trailingPE" := Fin 30]})
  = expected_return_stock (extract_metrics {["revenueGrowth" := Fin 0.08]}).
Proof.
  apply expected_return_stock_three_fields; reflexivity.
Defined.

Lemma sector_averages_field (infos : list (gmap string pyfloat)) (k f : string) :
  In (k, f) METRIC_FIELDS ->
  sector_averages infos !! k = column_mean (map (fun i => i !! f) infos).
Proof.
  intros H. unfold sector_averages.
  assert (Hk : In k (map fst METRIC_FIELDS))
    by (apply (in_map fst _ _ H)).
  rewrite (lookup_omap_key (fun k : string => k)
             (fun k => column_mean (column k (map extract_metrics infos)))
             (map fst METRIC_FIELDS) k);
    [| rewrite map_id; exact METRIC_FIELDS_NoDup | exact Hk].
  f_equal. unfold column. rewrite map_map. apply map_ext.
  intros i. apply extract_metrics_field. exact H.
Qed.

Lemma forallb_is_none_iff {A : Type} (col : list (option A)) :
  forallb is_none col = true <-> forall v, In v col -> v = None.
Proof.
  rewrite forallb_forall. split; intros H v Hv; specialize (H v Hv).
  - destruct v; [discriminate H | reflexivity].
  - rewrite H. reflexivity.
Qed.

(** X11. A sector average is absent exactly when no peer has the field,
    in particular when there is no peer. *)
Theorem sector_average_absent_iff
    (infos : list (gmap string pyfloat)) (k f : string) :
  In (k, f) METRIC_FIELDS ->
  sector_averages infos !! k = None <->
  forall info, In info infos -> info !! f = None.
Proof.
  intros H. rewrite (sector_averages_field _ _ _ H). unfold column_mean.
  destruct (forallb is_none (map (fun i => i !! f) infos)) eqn:E.
  - split; [| reflexivity].
    intros _ info Hin. apply (proj1 (forallb_is_none_iff _) E). apply (in_map (fun i => i !! f)). exact Hin.
  - split; [discriminate |]. intros Hall.
    assert (E' : forallb is_none (map (fun i => i !! f) infos) = true).
    { apply forallb_is_none_iff. intros v Hv. apply in_map_iff in Hv.
      destruct Hv as (info & <- & Hin). apply Hall. exact Hin. }
    congruence.
Qed.

Lemma sector_average_absent_iff_witness :
  sector_averages [{["trailingPE" := Fin 10]}] !! "roe" = None.
Proof.
  apply (sector_average_absent_iff [{["trailingPE" := Fin 10]}]
           "roe" "returnOnEquity").
  - simpl. tauto.
  - intros info [<- | []]. reflexivity.
Defined.

Lemma dropna_app (l k : list pyfloat) : dropna (l ++ k) = dropna l ++ dropna k.
Proof. unfold dropna. apply List.filter_app. Qed.

Lemma column_mean_skip_none (c1 c2 : list (option pyfloat)) :
  column_mean (c1 ++ None :: c2) = column_mean (c1 ++ c2).
Proof.
  unfold column_mean. rewrite !forallb_app. simpl.
  destruct (forallb is_none c1 && forallb is_none c2); [reflexivity |].
  f_equal. unfold series_mean. rewrite !map_app, !dropna_app. reflexivity.
Qed.

(** X12. A peer that lacks a field is skipped, not counted as zero:
    the sector average of that field is the same with and without the
    peer. *)
Theorem sector_average_skips_missing
    (infos1 infos2 : list (gmap string pyfloat)) (info : gmap string pyfloat)
    (k f : string) :
  In (k, f) METRIC_FIELDS ->
  info !! f = None ->
  sector_averages (infos1 ++ info :: infos2) !! k
  = sector_averages (infos1 ++ infos2) !! k.
Proof.
  intros H Hnone. rewrite !(sector_averages_field _ _ _ H).
  rewrite !map_app. simpl. rewrite Hnone. apply column_mean_skip_none.
Qed.

Lemma sector_average_skips_missing_witness :
  sector_averages ([{["trailingPE" := Fin 10]}] ++ ∅ :: [{["trailingPE" := Fin 20]}])
    !! "pe"
  = sector_averages ([{["trailingPE" := Fin 10]}] ++ [{["trailingPE" := Fin 20]}])
    !! "pe".
Proof.
  apply (sector_average_skips_missing _ _ _ "pe" "trailingPE").
  - simpl. tauto.
  - reflexivity.
Defined.

Lemma fsum_from_fin (l : list Q) (a : Q) :
  exists s, fold_left fadd (map Fin l) (Fin a) = Fin s /\ (s == a + Qsum l)%Q.
Proof.
  revert a. induction l as [| x l IH]; intros a; simpl.
  - exists a. split; [reflexivity | ring].
  - destruct (IH (Qred (a + x))) as (s & Es & Hs).
    exists s. split; [exact Es |].
    rewrite Hs, Qred_correct. ring.
Qed.

Lemma Qsum_between (l : list Q) (lo hi : Q) :
  (forall x, In x l -> (lo <= x <= hi)%Q) ->
  (inject_Z (Z.of_nat (length l)) * lo <= Qsum l
   <= inject_Z (Z.of_nat (length l)) * hi)%Q.
Proof.
  induction l as [| x l IH]; intros H.
  - simpl. split; ring_simplify; apply Qle_refl.
  - assert (Hx : (lo <= x <= hi)%Q) by (apply H; left; reflexivity).
    assert (Hl := IH (fun y Hy => H y (or_intror Hy))).
    replace (length (x :: l)) with (S (length l)) by reflexivity.
    rewrite Nat2Z.inj_succ. unfold Z.succ. rewrite inject_Z_plus.
    change (Qsum (x :: l)) with (x + Qsum l)%Q.
    set (n := inject_Z (Z.of_nat (length l))) in *.
    change (inject_Z 1) with 1%Q.
    split; ring_simplify; lra.
Qed.

(** The mean of finite values lies between any two bounds of them. *)
Lemma series_mean_between (l : list pyfloat) (vals : list Q) (lo hi : Q) :
  dropna l = map Fin vals -> vals <> [] ->
  (forall a, In a vals -> (lo <= a <= hi)%Q) ->
  exists q, series_mean l = Fin q /\ (lo <= q <= hi)%Q.
Proof.
  intros Hd Hne Hall. unfold series_mean. rewrite Hd.
  destruct vals as [| a0 vals]; [congruence |].
  set (vs := a0 :: vals) in *. change (map Fin vs) with (Fin a0 :: map Fin vals).
  cbv iota. change (Fin a0 :: map Fin vals) with (map Fin vs).
  unfold fsum. destruct (fsum_from_fin vs 0) as (s & -> & Hs).
  rewrite length_map. unfold of_nat.
  assert (Hn : (0 < inject_Z (Z.of_nat (length vs)))%Q).
  { change 0%Q with (inject_Z 0). rewrite <- Zlt_Qlt. subst vs. simpl. lia. }
  rewrite fdiv_finite by (intros E; rewrite E in Hn; discriminate Hn).
  eexists. split; [reflexivity |].
  rewrite Qred_correct.
  destruct (Qsum_between vs lo hi Hall) as [H1 H2].
  rewrite Hs. split.
  - apply Qle_shift_div_l; [exact Hn |]. lra.
  - apply Qle_shift_div_r; [exact Hn |]. lra.
Qed.

Lemma column_finite_values (col : list (option pyfloat)) (lo hi : Q) :
  (forall v, In (Some v) col -> exists a, v = Fin a /\ (lo <= a <= hi)%Q) ->
  exists vals,
    dropna (map (default NaN) col) = map Fin vals /\
    (forall a, In a vals -> (lo <= a <= hi)%Q) /\
    (forallb is_none col = false -> vals <> []).
Proof.
  induction col as [| [v |] col IH]; intros H.
  - exists []. split; [reflexivity |]. split; [intros a [] | discriminate].
  - destruct (H v (or_introl eq_refl)) as (a & -> & Ha).
    destruct (IH (fun w Hw => H w (or_intror Hw))) as (vals & Ed & Hv & _).
    exists (a :: vals). simpl. rewrite Ed. split; [reflexivity |]. split.
    + intros b [<- | Hb]; [exact Ha | apply Hv; exact Hb].
    + discriminate.
  - destruct (IH (fun w Hw => H w (or_intror Hw))) as (vals & Ed & Hv & Hne).
    exists vals. simpl. split; [exact Ed |]. split; assumption.
Qed.

Lemma column_mean_between (col : list (option pyfloat)) (lo hi : Q) :
  (exists v, In (Some v) col) ->
  (forall v, In (Some v) col -> exists a, v = Fin a /\ (lo <= a <= hi)%Q) ->
  exists q, column_mean col = Some (Fin q) /\ (lo <= q <= hi)%Q.
Proof.
  intros (v0 & Hv0) Hall. unfold column_mean.
  destruct (forallb is_none col) eqn:E.
  - specialize (proj1 (forallb_is_none_iff col) E _ Hv0). discriminate.
  - destruct (column_finite_values col lo hi Hall) as (vals & Ed & Hv & Hne).
    destruct (series_mean_between _ vals lo hi Ed (Hne E) Hv)
      as (q & -> & Hq).
    exists q. split; [reflexivity | exact Hq].
Qed.

Lemma column_of_infos (infos : list (gmap string pyfloat)) (f : string)
    (v : pyfloat) :
  In (Some v) (map (fun i => i !! f) infos) <->
  exists info, In info infos /\ info !! f = Some v.
Proof.
  rewrite in_map_iff. split; intros (info & H1 & H2); exists info; tauto.
Qed.

(** X14. A tie against a single peer: when exactly one peer has the
    field and its value is the stock's own, the sector average is that
    value and the comparison says Worse, for a lower-is-better and a
    higher-is-better metric alike. A stock whose only peer is itself is
    Worse on every metric it has. *)
Theorem stock_equal_to_peers_is_worse
    (info peer : gmap string pyfloat)
    (before after : list (gmap string pyfloat))
    (k f : string) (meta : metric_meta) (a : Q) :
  In (k, f) METRIC_FIELDS ->
  info !! f = Some (Fin a) ->
  peer !! f = Some (Fin a) ->
  (forall other, In other (before ++ after) -> other !! f = None) ->
  Verdict (comparison_row_of (extract_metrics info)
             (sector_averages (before ++ peer :: after)) (k, meta)) = WORSE.
Proof.
  intros H Ha Hpeer Hothers.
  unfold comparison_row_of. simpl.
  rewrite (extract_metrics_field _ _ _ H), Ha.
  rewrite (sector_averages_field _ _ _ H).
  destruct (column_mean_between
              (map (fun i => i !! f) (before ++ peer :: after)) a a)
    as (q & -> & Hq).
  - exists (Fin a). apply column_of_infos. exists peer.
    split; [apply in_or_app; right; left; reflexivity | exact Hpeer].
  - intros v Hv. apply column_of_infos in Hv.
    destruct Hv as (other & Hin & Hv).
    exists a. split; [| split; apply Qle_refl].
    apply in_app_or in Hin. destruct Hin as [Hin | [<- | Hin]].
    + rewrite (Hothers other) in Hv by (apply in_or_app; left; exact Hin).
      discriminate Hv.
    + rewrite Hpeer in Hv. injection Hv as <-. reflexivity.
    + rewrite (Hothers other) in Hv by (apply in_or_app; right; exact Hin).
      discriminate Hv.
  - rewrite better_tie; [reflexivity |].
    simpl. apply Qeq_bool_iff. apply Qle_antisym; tauto.
Qed.

Lemma stock_equal_to_peers_is_worse_witness :
  Verdict (comparison_row_of
             (extract_metrics {["returnOnEquity" := Fin 0.2]})
             (sector_averages
                ([{["trailingPE" := Fin 12]}]
                 ++ {["returnOnEquity" := Fin 0.2]} :: []))
             ("roe"%string, {| label := "ROE"; inverse := false;
                               range := "<10% Weak | 10–15% Avg | >15% Strong" |}))
  = WORSE.
Proof.
  apply (stock_equal_to_peers_is_worse _ _ _ _ "roe" "returnOnEquity" _ 0.2%Q).
  - simpl. tauto.
  - reflexivity.
  - reflexivity.
  - intros other [<- | []]. reflexivity.
Defined.

(** ** Funds: the window of a sorted frame *)

(** The order of two rows by date. *)
#[local] Abbreviation row_le :=
  (fun a b : nav_row => date_leb (row_date a) (row_date b) = true).

#[local] Instance row_le_transitive : Transitive row_le.
Proof. intros a b c. apply date_leb_trans. Qed.

Lemma minus_years_antitone (m : date) (k k' : Z) :
  k <= k' -> date_leb (minus_years m k') (minus_years m k) = true.
Proof.
  intros H. destruct (Z.eq_dec k k') as [-> | Hne]; [apply date_leb_refl |].
  apply date_leb_spec. left. unfold minus_years. simpl. lia.
Qed.

(** Filtering a sorted frame by "dated [c] or later" keeps a suffix, and
    drops rows dated before [c] only. *)
Lemma filter_sorted_suffix (c : date) (l : list nav_row) :
  StronglySorted row_le l ->
  exists pre,
    l = pre ++ List.filter (fun r => date_leb c (row_date r)) l /\
    forall r, In r pre -> date_leb c (row_date r) = false.
Proof.
  induction 1 as [| a l Hs IH Hall].
  - exists []. split; [reflexivity | intros r []].
  - simpl. destruct (date_leb c (row_date a)) eqn:E.
    + exists []. split; [| intros r []]. simpl. f_equal.
      symmetry. apply forallb_filter_id. apply forallb_forall.
      intros r Hr. rewrite Forall_forall in Hall.
      apply list_elem_of_In in Hr.
      eapply date_leb_trans; [exact E | apply Hall; exact Hr].
    + destruct IH as (pre & Epre & Hpre).
      exists (a :: pre). split.
      * simpl. f_equal. exact Epre.
      * intros r [<- | Hr]; [exact E | apply Hpre; exact Hr].
Qed.

Lemma filter_sorted (p : nav_row -> bool) (l : list nav_row) :
  StronglySorted row_le l -> StronglySorted row_le (List.filter p l).
Proof.
  induction 1 as [| a l Hs IH Hall]; simpl; [constructor |].
  destruct (p a); [| exact IH].
  constructor; [exact IH |].
  rewrite Forall_forall in *. intros r Hr.
  apply Hall. apply list_elem_of_In in Hr. apply filter_In in Hr.
  apply list_elem_of_In. tauto.
Qed.

Lemma filter_filter_implied {A : Type} (p q : A -> bool) (l : list A) :
  (forall x, p x = true -> q x = true) ->
  List.filter p (List.filter q l) = List.filter p l.
Proof.
  intros H. induction l as [| a l IH]; simpl; [reflexivity |].
  destruct (q a) eqn:Eq; simpl.
  - rewrite IH. reflexivity.
  - destruct (p a) eqn:Ep; [| exact IH].
    rewrite (H _ Ep) in Eq. discriminate Eq.
Qed.

(** X15. On a frame sorted by date with a row at least, the window of
    [k] years is a suffix of the frame, the rows before it are dated
    before the cut-off, and it ends with the last row: the 1-year and the
    3-year CAGR divide the same latest NAV. A shorter window is a suffix
    of a longer one. *)
Theorem window_of_sorted_frame (nav_df : list nav_row) (k : Z) :
  date_sorted nav_df -> nav_df <> [] -> 0 <= k ->
  exists m pre,
    date_max (map row_date nav_df) = Some m /\
    nav_df = pre ++ window k nav_df /\
    (forall r, In r pre -> date_leb (minus_years m k) (row_date r) = false) /\
    iloc_last (window k nav_df) = iloc_last nav_df /\
    (forall k', k <= k' -> suffix (window k nav_df) (window k' nav_df)).
Proof.
  intros Hs Hne Hk. apply Sorted_StronglySorted in Hs; [| exact _].
  destruct (date_max (map row_date nav_df)) as [m |] eqn:Em;
    [| destruct nav_df; [congruence | discriminate Em]].
  assert (Hw : forall j, window j nav_df
                 = List.filter (fun r => date_leb (minus_years m j) (row_date r))
                               nav_df)
    by (intros j; unfold window; rewrite Em; reflexivity).
  destruct (filter_sorted_suffix (minus_years m k) _ Hs) as (pre & Epre & Hpre).
  rewrite <- Hw in Epre.
  exists m, pre. split; [reflexivity |]. split; [exact Epre |].
  split; [exact Hpre |]. split.
  - unfold iloc_last. rewrite Epre at 2. rewrite last_app.
    destruct (last (window k nav_df)) eqn:El; [reflexivity |].
    apply last_None in El. apply window_not_nil in El; [destruct El | |];
      assumption.
  - intros k' Hk'.
    assert (E : window k nav_df
                = List.filter (fun r => date_leb (minus_years m k) (row_date r))
                              (window k' nav_df)).
    { rewrite !Hw. symmetry. apply filter_filter_implied.
      intros r Hr. eapply date_leb_trans; [| exact Hr].
      apply minus_years_antitone. exact Hk'. }
    destruct (filter_sorted_suffix (minus_years m k) (window k' nav_df))
      as (pre' & Epre' & _).
    + rewrite Hw. apply filter_sorted. exact Hs.
    + rewrite <- E in Epre'. exists pre'. exact Epre'.
Qed.

Lemma window_of_sorted_frame_witness :
  iloc_last (window 1 [NavRow (Date 2020 1 2) 100; NavRow (Date 2024 1 2) 120])
  = iloc_last [NavRow (Date 2020 1 2) 100; NavRow (Date 2024 1 2) 120].
Proof.
  destruct (window_of_sorted_frame
              [NavRow (Date 2020 1 2) 100; NavRow (Date 2024 1 2) 120] 1)
    as (m & pre & _ & _ & _ & H & _).
  - repeat constructor.
  - discriminate.
  - lia.
  - exact H.
Defined.

(** ** Funds: the maximum drawdown of positive prices *)

Lemma drawdown_positive (p m : Q) :
  (0 < p)%Q -> (p <= m)%Q ->
  exists q, drawdown p m = Fin q /\ (-1 < q <= 0)%Q /\
            ((q == 0)%Q <-> (p == m)%Q).
Proof.
  intros Hp Hpm.
  assert (Hm : (0 < m)%Q) by lra.
  assert (Hnz : ~ (m == 0)%Q) by lra.
  unfold drawdown. rewrite (fdiv_finite p m Hnz). simpl.
  eexists. split; [reflexivity |]. rewrite !Qred_correct.
  assert (H0 : (0 < p / m)%Q) by (apply Qlt_shift_div_l; lra).
  assert (H1 : (p / m <= 1)%Q) by (apply Qle_shift_div_r; lra).
  assert (Hr : (p / m * m == p)%Q) by (field; exact Hnz).
  split; [lra |]. split; intros H.
  - assert (E : (p / m == 1)%Q) by lra. rewrite E in Hr. lra.
  - assert (E : (p / m == 1)%Q) by (rewrite H; field; exact Hnz). lra.
Qed.

Lemma cummax_step (m p : Q) :
  let m' := if Qle_bool m p then p else m in
  (m <= m')%Q /\ (p <= m')%Q.
Proof.
  simpl. destruct (Qle_bool m p) eqn:E.
  - apply Qle_bool_iff in E. split; [exact E | apply Qle_refl].
  - apply Qle_bool_false in E. split; [apply Qle_refl | lra].
Qed.

Lemma drawdowns_from_positive (l : list Q) (m : Q) :
  (0 < m)%Q -> (forall p, In p l -> (0 < p)%Q) ->
  forall x, In x (zip_with drawdown l (cummax_from m l)) ->
  exists q, x = Fin q /\ (-1 < q <= 0)%Q.
Proof.
  revert m. induction l as [| p t IH]; intros m Hm Hall x Hx; [destruct Hx |].
  simpl in Hx. destruct (cummax_step m p) as [H1 H2].
  assert (Hp : (0 < p)%Q) by (apply Hall; left; reflexivity).
  destruct Hx as [<- | Hx].
  - destruct (drawdown_positive p _ Hp H2) as (q & E & Hq & _).
    exists q. split; assumption.
  - apply (IH (if Qle_bool m p then p else m)); [lra | | exact Hx].
    intros p' Hp'. apply Hall. right. exact Hp'.
Qed.

Lemma drawdowns_positive (nav : list Q) :
  (forall p, In p nav -> (0 < p)%Q) ->
  forall x, In x (drawdowns nav) -> exists q, x = Fin q /\ (-1 < q <= 0)%Q.
Proof.
  intros Hall x Hx. destruct nav as [| p t]; [destruct Hx |].
  assert (Hp : (0 < p)%Q) by (apply Hall; left; reflexivity).
  unfold drawdowns in Hx. simpl in Hx. destruct Hx as [<- | Hx].
  - destruct (drawdown_positive p p Hp (Qle_refl p)) as (q & E & Hq & _).
    exists q. split; assumption.
  - apply (drawdowns_from_positive t p Hp); [| exact Hx].
    intros p' Hp'. apply Hall. right. exact Hp'.
Qed.

Lemma max_dd_attained (nav : list Q) :
  nav <> [] -> (forall p, In p nav -> (0 < p)%Q) ->
  In (max_dd nav) (drawdowns nav) /\
  forall x, In x (drawdowns nav) -> (max_dd nav <=? x)%py = true.
Proof.
  intros Hne Hall.
  assert (Hfin : forall x, In x (drawdowns nav) -> is_nan x = false).
  { intros x Hx. destruct (drawdowns_positive nav Hall x Hx) as (q & -> & _).
    reflexivity. }
  destruct nav as [| p t]; [congruence |].
  assert (H0 : In (drawdown p p) (drawdowns (p :: t))) by (left; reflexivity).
  destruct (series_min_spec _ _ H0 (Hfin _ H0)) as (_ & Hmem & _).
  split; [exact Hmem |].
  intros x Hx. apply (series_min_spec _ _ Hx (Hfin _ Hx)).
Qed.

(** X17. On positive prices the maximum drawdown is a finite number
    between -1 (a fall of 100%) and 0, both included. *)
Theorem max_dd_positive_range (nav : list Q) :
  nav <> [] -> (forall p, In p nav -> (0 < p)%Q) ->
  exists q, max_dd nav = Fin q /\ (-1 <= q <= 0)%Q.
Proof.
  intros Hne Hall. destruct (max_dd_attained nav Hne Hall) as [Hmem _].
  destruct (drawdowns_positive nav Hall _ Hmem) as (q & E & Hlo & Hhi).
  exists q. split; [exact E |]. split; [apply Qlt_le_weak; exact Hlo | exact Hhi].
Qed.

Lemma max_dd_positive_range_witness :
  exists q, max_dd [100; 120; 90]%Q = Fin q /\ (-1 <= q <= 0)%Q.
Proof.
  apply max_dd_positive_range.
  - discriminate.
  - intros p [<- | [<- | [<- | []]]]; reflexivity.
Defined.

Lemma chain_of_zero_drawdowns (l : list Q) (m : Q) :
  (0 < m)%Q -> (forall p, In p l -> (0 < p)%Q) ->
  (forall q, In (Fin q) (zip_with drawdown l (cummax_from m l)) -> (q == 0)%Q) ->
  chain m l.
Proof.
  revert m. induction l as [| p t IH]; intros m Hm Hall Hz; [exact I |].
  simpl in Hz. assert (Hp : (0 < p)%Q) by (apply Hall; left; reflexivity).
  destruct (Qle_bool m p) eqn:E.
  - split; [apply Qle_bool_iff; exact E |].
    apply IH; [exact Hp | |].
    + intros p' Hp'. apply Hall. right. exact Hp'.
    + intros q Hq. apply Hz. right. exact Hq.
  - exfalso. apply Qle_bool_false in E.
    destruct (drawdown_positive p m Hp) as (q & Eq & _ & Hiff); [lra |].
    assert (Hq : (q == 0)%Q) by (apply Hz; left; exact Eq).
    apply Hiff in Hq. lra.
Qed.

(** X18. On positive prices the maximum drawdown is 0 exactly when the
    series never goes down: any fall below an earlier price makes it
    negative. *)
Theorem max_dd_zero_iff_nondecreasing (nav : list Q) :
  nav <> [] -> (forall p, In p nav -> (0 < p)%Q) ->
  max_dd nav = Fin 0 <-> nondecreasing nav.
Proof.
  intros Hne Hall. destruct (max_dd_attained nav Hne Hall) as [Hmem Hlow].
  split.
  - intros Hz. rewrite Hz in Hlow.
    assert (Hzero : forall q, In (Fin q) (drawdowns nav) -> (q == 0)%Q).
    { intros q Hq.
      destruct (drawdowns_positive nav Hall _ Hq) as (q' & Eq & Hq').
      injection Eq as <-. specialize (Hlow _ Hq). simpl in Hlow.
      apply Qle_bool_iff in Hlow. lra. }
    destruct nav as [| p t]; [congruence |].
    apply chain_of_zero_drawdowns.
    + apply Hall. left. reflexivity.
    + intros p' Hp'. apply Hall. right. exact Hp'.
    + intros q Hq. apply Hzero. right. exact Hq.
  - intros Hnd. rewrite (drawdowns_nondecreasing _ Hnd) in Hmem.
    apply in_map_iff in Hmem. destruct Hmem as (p & Ep & Hp).
    rewrite <- Ep. apply drawdown_self.
    specialize (Hall _ Hp). lra.
Qed.

Lemma max_dd_zero_iff_nondecreasing_witness :
  max_dd [100; 120; 120; 150]%Q = Fin 0.
Proof.
  apply max_dd_zero_iff_nondecreasing.
  - discriminate.
  - intros p [<- | [<- | [<- | [<- | []]]]]; reflexivity.
  - simpl. repeat split; discriminate.
Defined.

(** ** Funds: the whole analysis *)

Lemma analyze_mutual_fund_some (power : pyfloat -> pyfloat -> pyfloat)
    (nav_df : list nav_row) :
  nav_df <> [] ->
  exists c1 c3,
    cagr_1y nav_df = Some c1 /\ cagr_3y power nav_df = Some c3 /\
    analyze_mutual_fund power nav_df
    = Some {| report_cagr_1y := c1;
              report_cagr_3y := c3;
              report_volatility := volatility (pct_change (map row_nav nav_df));
              report_sharpe := sharpe (pct_change (map row_nav nav_df));
              report_max_dd := max_dd (map row_nav nav_df);
              report_expected_return :=
                expected_return_mf c3 (sharpe (pct_change (map row_nav nav_df)));
              report_metrics :=
                mf_metrics c1 c3
                  (volatility (pct_change (map row_nav nav_df)))
                  (sharpe (pct_change (map row_nav nav_df)))
                  (max_dd (map row_nav nav_df)) |}.
Proof.
  intros Hne.
  destruct (iloc_ends (window 1 nav_df)) as (f1 & l1 & Hf1 & Hl1 & _);
    [apply window_not_nil; [lia | exact Hne] |].
  destruct (iloc_ends (window 3 nav_df)) as (f3 & l3 & Hf3 & Hl3 & _);
    [apply window_not_nil; [lia | exact Hne] |].
  assert (E1 : cagr_1y nav_df = Some (Fin l1 / Fin f1 - Fin 1)%py)
    by (unfold cagr_1y; rewrite Hl1, Hf1; reflexivity).
  assert (E3 : cagr_3y power nav_df
               = Some (power (Fin l3 / Fin f3) (Fin 1 / Fin 3) - Fin 1)%py)
    by (unfold cagr_3y; rewrite Hl3, Hf3; reflexivity).
  eexists _, _. split; [exact E1 |]. split; [exact E3 |].
  unfold analyze_mutual_fund. rewrite E1, E3. reflexivity.
Qed.

(** X19. The analysis raises on the empty frame and on no other: with a
    row at least, both windows hold the latest row and every statement
    goes through, zero NAVs included. *)
Theorem analyze_mutual_fund_raises_iff
    (power : pyfloat -> pyfloat -> pyfloat) (nav_df : list nav_row) :
  analyze_mutual_fund power nav_df = None <-> nav_df = [].
Proof.
  split.
  - intros H. destruct nav_df as [| r t]; [reflexivity |].
    destruct (analyze_mutual_fund_some power (r :: t)) as (c1 & c3 & _ & _ & E);
      [discriminate |].
    rewrite E in H. discriminate H.
  - intros ->. reflexivity.
Qed.

Lemma series_var_few (l : list pyfloat) :
  (length (dropna l) <= 1)%nat -> series_var l = NaN.
Proof.
  intros H. unfold series_var.
  apply Nat.leb_le in H. rewrite H. reflexivity.
Qed.

Lemma pct_change_from_length (prev : Q) (l : list Q) :
  length (pct_change_from prev l) = length l.
Proof.
  revert prev. induction l as [| x l IH]; intros prev; simpl; [reflexivity |].
  rewrite IH. reflexivity.
Qed.

Lemma dropna_pct_change_length (nav : list Q) :
  (length (dropna (pct_change nav)) <= length nav - 1)%nat.
Proof.
  destruct nav as [| x t]; simpl; [lia |].
  unfold dropna. etransitivity; [apply List.filter_length_le |].
  rewrite pct_change_from_length. lia.
Qed.

Lemma fdiv_nan_r (x : pyfloat) : (x / NaN)%py = NaN.
Proof. destruct x; reflexivity. Qed.

Lemma volatility_short (nav : list Q) :
  (length nav <= 2)%nat ->
  volatility (pct_change nav) = NaN /\ sharpe (pct_change nav) = NaN.
Proof.
  intros H.
  assert (Hv : volatility (pct_change nav) = NaN).
  { unfold volatility, series_std. rewrite series_var_few.
    - apply fmul_nan_l.
    - pose proof (dropna_pct_change_length nav). lia. }
  split; [exact Hv |]. unfold sharpe. rewrite Hv. apply fdiv_nan_r.
Qed.

(** X20. One or two NAVs give one return at most, and the standard
    deviation ([ddof=1]) needs two: the volatility and the Sharpe ratio
    are [nan], both are classified Poor, and the expected return is
    [nan]. *)
Theorem analyze_mutual_fund_short_frame
    (power : pyfloat -> pyfloat -> pyfloat) (nav_df : list nav_row) :
  nav_df <> [] -> (length nav_df <= 2)%nat ->
  exists r,
    analyze_mutual_fund power nav_df = Some r /\
    report_volatility r = NaN /\
    report_sharpe r = NaN /\
    report_expected_return r = NaN /\
    In ("Volatility"%string, Some POOR) (report_metrics r) /\
    In ("Sharpe Ratio"%string, Some POOR) (report_metrics r).
Proof.
  intros Hne Hlen.
  destruct (analyze_mutual_fund_some power nav_df Hne) as (c1 & c3 & _ & _ & E).
  destruct (volatility_short (map row_nav nav_df)) as [Hv Hs];
    [rewrite length_map; exact Hlen |].
  rewrite Hv, Hs in E. eexists. split; [exact E |]. simpl.
  split; [reflexivity |]. split; [reflexivity |].
  split; [apply fmul_nan_r |].
  split; [right; right; left; reflexivity |].
  right; right; right; left; reflexivity.
Qed.

Lemma analyze_mutual_fund_short_frame_witness :
  exists r,
    analyze_mutual_fund (fun x _ => x)
      [NavRow (Date 2023 1 2) 100; NavRow (Date 2024 1 2) 120] = Some r /\
    report_volatility r = NaN.
Proof.
  destruct (analyze_mutual_fund_short_frame (fun x _ => x)
              [NavRow (Date 2023 1 2) 100; NavRow (Date 2024 1 2) 120])
    as (r & E & Hv & _).
  - discriminate.
  - simpl. lia.
  - exists r. split; assumption.
Defined.

Lemma np_sqrt_not_negative (x : pyfloat) : not_negative (np_sqrt x).
Proof.
  destruct x as [q | | |]; simpl;
    [| right; left; reflexivity | left; reflexivity | left; reflexivity].
  destruct (Qltb q 0); [left; reflexivity |].
  right; right. eexists. split; [reflexivity |].
  rewrite Qred_correct. unfold Qle. simpl.
  rewrite Z.mul_1_r. apply Z.sqrt_nonneg.
Qed.

Lemma fmul_positive_not_negative (x : pyfloat) (s : Q) :
  (0 < s)%Q -> not_negative x -> not_negative (x * Fin s)%py.
Proof.
  intros Hs [-> | [-> | (q & -> & Hq)]].
  - left. reflexivity.
  - right; left. simpl.
    assert (E : (s ?= 0)%Q = Gt) by (apply Qgt_alt; exact Hs).
    rewrite E. reflexivity.
  - right; right. eexists. split; [reflexivity |].
    rewrite Qred_correct. nra.
Qed.

(** X21. The volatility is never negative: it is [nan], [+inf], or a
    number that is at least 0, whatever the returns. *)
Theorem volatility_not_negative (returns : list pyfloat) :
  not_negative (volatility returns) /\
  (volatility returns <? Fin 0)%py = false.
Proof.
  assert (H : not_negative (volatility returns)).
  { unfold volatility.
    destruct (np_sqrt_not_negative (Fin 252)) as [E | [E | (s & E & Hs)]];
      [discriminate E | discriminate E |].
    rewrite E. apply fmul_positive_not_negative.
    - assert (Hne : ~ (s == 0)%Q).
      { injection E as <-. vm_compute. discriminate. }
      lra.
    - apply np_sqrt_not_negative. }
  split; [exact H |].
  destruct H as [-> | [-> | (q & -> & Hq)]]; try reflexivity.
  simpl. apply Qltb_ge. exact Hq.
Qed.

Lemma sharpe_adj_finite (sharpe : pyfloat) :
  is_nan sharpe = false ->
  exists a, sharpe_adj sharpe = Fin a /\ (0.5 <= a <= 1.2)%Q.
Proof.
  intros Hn. destruct (sharpe_adj_bounds sharpe Hn) as [H1 H2].
  destruct (sharpe_adj sharpe) as [a | | |]; simpl in H1, H2;
    try discriminate H1; try discriminate H2.
  exists a. split; [reflexivity |].
  split; apply Qle_bool_iff; assumption.
Qed.



(** ** Rounding at the examples of the specification

    The model computes exactly; the script rounds to binary64. Evaluated
    in binary64, the example of the equity expected return is the double
    0.09 itself, and the example of the 1-year CAGR, [120/100 - 1], is
    the double just below 0.2. *)

(* Decimal literals are read as the nearest double, as Python reads them. *)
#[local] Set Warnings "-inexact-float".

Example binary64_expected_return_stock_009 :
  (0.08 + 0.03 - 0.02 =? 0.09)%float = true.
Proof. reflexivity. Qed.

Example binary64_cagr_1y_100_120 :
  (120 / 100 - 1 =? 0.2)%float = false /\
  (120 / 100 - 1 =? 0.19999999999999996)%float = true /\
  (abs (120 / 100 - 1 - 0.2) <? 1e-15)%float = true.
Proof. repeat split. Qed.
